(** * mtg: stream context, anti-replay cache, IP lists and listener

    A shallow embedding of four pieces of the proxy:
    - [mtglib]: the per-stream context ([streamContext], [Close],
      [ClientIP], [newStreamContext]);
    - [antireplay]: the no-op anti-replay cache;
    - [utils]: the listener that tunes every accepted socket;
    - [cli]: the constructors that turn the configuration into
      collaborators ([makeAntiReplayCache], [makeIPBlocklist],
      [makeIPAllowlist]).

    Go code that reads and writes shared objects is written in a state
    monad that can also panic.  Connections, contexts and IP lists are
    objects in a store and the Go values that point at them are
    indices into it, so that two calls on the same connection see each
    other's effects. *)

From Stdlib Require Import ZArith NArith List String Ascii Bool Lia.
From Stdlib.Strings Require Import Byte.
From stdpp Require Import base option list.

Local Open Scope string_scope.
Local Open Scope list_scope.

(** ** Errors, panics and the monad *)

(** A Go [error] value: [errors.New] and the like make an
    [errorString], [fmt.Errorf("msg: %w", err)] wraps one. *)
Inductive error : Type :=
| errorString (msg : string)
| wrapError (msg : string) (inner : error).

(** What a goroutine can panic with in the code below. *)
Inductive panicValue : Type :=
| PanicError (e : error)      (* panic(err) *)
| PanicNilDereference         (* method call or field access through nil *)
| PanicTypeAssertion.         (* x.(T) on a value whose dynamic type is not T *)

(** The outcome of running a piece of Go code from a state [s]: it
    returns [a] in a new state, or it panics. *)
Inductive Res (S A : Type) : Type :=
| Ok (a : A) (s : S)
| Panic (p : panicValue) (s : S).
Arguments Ok {S A} a s.
Arguments Panic {S A} p s.

Definition M (S A : Type) : Type := S -> Res S A.

#[global] Instance M_ret {S} : MRet (M S) := fun A a s => Ok a s.

#[global] Instance M_bind {S} : MBind (M S) := fun A B f m s =>
  match m s with
  | Ok a s' => f a s'
  | Panic p s' => Panic p s'
  end.

Definition panic {S A} (p : panicValue) : M S A := fun s => Panic p s.

Definition modify {S} (f : S -> S) : M S unit := fun s => Ok tt (f s).

Definition returned {S A} (r : Res S A) : bool :=
  match r with Ok _ _ => true | Panic _ _ => false end.

Definition state_of {S A} (r : Res S A) : S :=
  match r with Ok _ s => s | Panic _ s => s end.

(** ** Addresses and connections *)

(** [net.IP] is a byte slice: 4 bytes for IPv4, 16 for IPv6. *)
Definition IP : Type := list byte.

Record TCPAddrStruct : Type := {
  tcp_IP : IP;
  tcp_Port : Z;
  tcp_Zone : string
}.

(** A [net.Addr] interface value, by dynamic type.  A [*net.TCPAddr]
    may itself be a nil pointer. *)
Inductive Addr : Type :=
| AddrNil
| AddrTCP (a : option TCPAddrStruct)
| AddrUDP (ip : IP) (port : Z)
| AddrUnix (name : string).

(** A connection object.  What the peer and the operating system do is
    data of the object: [closeScript n] is what the [n]-th call of
    [Close] answers (counting from 0), [sockoptResult] what setting the
    client socket options answers.  [closeCalls] counts the calls of
    [Close] made so far and [tuned] records that the options were
    applied. *)
Record ConnObj : Type := {
  remoteAddr : Addr;
  closeScript : nat -> option error;
  closeCalls : nat;
  sockoptResult : option error;
  tuned : bool
}.

Abbreviation ConnRef := nat (only parsing).

(** An [essentials.Conn] or [net.Conn] interface value: nil or a
    reference to a connection object. *)
Definition Conn : Type := option ConnRef.

(** ** Contexts *)

Abbreviation CtxRef := nat (only parsing).

(** [context.Context]: the background context or a cancellable one. *)
Inductive Context : Type :=
| Background
| CancelCtx (r : CtxRef).

Record CtxObj : Type := {
  ctxParent : Context;
  ctxDone : bool
}.

(** A [context.CancelFunc]: it cancels the context it was made for. *)
Abbreviation CancelFunc := nat (only parsing).

(** ** Logger *)

(** Modelled from the spec: the [mtglib.Logger] interface is not among
    the sources.  The spec lists [Named(s)], [BindStr(k,v)] and
    [InfoError]; a logger is its name and the fields bound so far, and
    what it emits is appended to the log of the world. *)
Record Logger : Type := {
  logName : list string;
  logFields : list (string * string)
}.

Record LogRecord : Type := {
  recLogger : Logger;
  recMsg : string;
  recErr : option error
}.

Definition Named (name : string) (l : Logger) : Logger :=
  {| logName := logName l ++ [name]; logFields := logFields l |}.

Definition BindStr (k v : string) (l : Logger) : Logger :=
  {| logName := logName l; logFields := logFields l ++ [(k, v)] |}.

(** ** The world *)

Inductive AcceptOutcome : Type :=
| Accepted (c : ConnObj)
| AcceptFailed (e : error).

Record World : Type := {
  conns : list ConnObj;               (* connection objects *)
  ctxs : list CtxObj;                 (* cancellable contexts *)
  randPool : list byte;               (* bytes crypto/rand will deliver *)
  randErr : error;                    (* its error once the pool is short *)
  logs : list LogRecord;              (* what loggers have emitted *)
  backlogs : list (list AcceptOutcome) (* per base listener: what Accept will answer *)
}.

Definition set_conns (f : list ConnObj -> list ConnObj) (w : World) : World :=
  {| conns := f (conns w); ctxs := ctxs w; randPool := randPool w;
     randErr := randErr w; logs := logs w; backlogs := backlogs w |}.

Definition set_ctxs (f : list CtxObj -> list CtxObj) (w : World) : World :=
  {| conns := conns w; ctxs := f (ctxs w); randPool := randPool w;
     randErr := randErr w; logs := logs w; backlogs := backlogs w |}.

Definition set_randPool (f : list byte -> list byte) (w : World) : World :=
  {| conns := conns w; ctxs := ctxs w; randPool := f (randPool w);
     randErr := randErr w; logs := logs w; backlogs := backlogs w |}.

Definition set_logs (f : list LogRecord -> list LogRecord) (w : World) : World :=
  {| conns := conns w; ctxs := ctxs w; randPool := randPool w;
     randErr := randErr w; logs := f (logs w); backlogs := backlogs w |}.

Definition set_backlogs (f : list (list AcceptOutcome) -> list (list AcceptOutcome))
    (w : World) : World :=
  {| conns := conns w; ctxs := ctxs w; randPool := randPool w;
     randErr := randErr w; logs := logs w; backlogs := f (backlogs w) |}.

(** [l.InfoError(msg, err)] *)
Definition InfoError (l : Logger) (msg : string) (err : error) : M World unit :=
  modify (set_logs (fun ls => ls ++ [{| recLogger := l; recMsg := msg; recErr := Some err |}])).

(** [c.Close()] on a connection object: the script answers, the call
    is counted.  A reference outside the store cannot be built in Go;
    the model panics on it. *)
Definition conn_Close (r : ConnRef) : M World (option error) := fun w =>
  match conns w !! r with
  | Some c =>
      Ok (closeScript c (closeCalls c))
         (set_conns (fun cs => <[r := {| remoteAddr := remoteAddr c;
                                        closeScript := closeScript c;
                                        closeCalls := S (closeCalls c);
                                        sockoptResult := sockoptResult c;
                                        tuned := tuned c |}]> cs) w)
  | None => Panic PanicNilDereference w
  end.

(** [c.RemoteAddr()] *)
Definition conn_RemoteAddr (r : ConnRef) : M World Addr := fun w =>
  match conns w !! r with
  | Some c => Ok (remoteAddr c) w
  | None => Panic PanicNilDereference w
  end.

(** [context.WithCancel(parent)]: a fresh context, already done when
    the parent is. *)
Definition ctx_done (w : World) (c : Context) : bool :=
  match c with
  | Background => false
  | CancelCtx r => match ctxs w !! r with Some o => ctxDone o | None => false end
  end.

Definition WithCancel (parent : Context) : M World (Context * CancelFunc) := fun w =>
  let r := length (ctxs w) in
  Ok (CancelCtx r, r)
     (set_ctxs (fun cs => cs ++ [{| ctxParent := parent; ctxDone := ctx_done w parent |}]) w).

(** Calling a [CancelFunc]: the context is done from now on; calling
    it again does nothing. *)
Definition cancel (f : CancelFunc) : M World unit :=
  modify (set_ctxs (fun cs =>
    match cs !! f with
    | Some o => <[f := {| ctxParent := ctxParent o; ctxDone := true |}]> cs
    | None => cs
    end)).

(** [context.Canceled] *)
Definition Canceled : error := errorString "context canceled".

(** [c.Err()] of a context: [Canceled] once the context or one of the
    contexts it was derived from is done, nil before.  [fuel] bounds
    the number of contexts looked at. *)
Fixpoint ctx_Err (fuel : nat) (w : World) (c : Context) : option error :=
  match fuel with
  | 0 => None
  | S n =>
      match c with
      | Background => None
      | CancelCtx r =>
          match ctxs w !! r with
          | None => None
          | Some o => if ctxDone o then Some Canceled else ctx_Err n w (ctxParent o)
          end
      end
  end.

(** [crypto/rand.Read(b)] with [len(b) = n]: the buffer afterwards and
    the error.  The buffer starts zeroed ([make([]byte, n)]). *)
Definition crand_Read (n : nat) : M World (list byte * option error) := fun w =>
  if decide (n <= length (randPool w)) then
    Ok (take n (randPool w), None) (set_randPool (drop n) w)
  else
    Ok (randPool w ++ replicate (n - length (randPool w)) x00, Some (randErr w))
       (set_randPool (fun _ => []) w).

(** ** encoding/base64 *)

Module base64.

(** [encodeURL], the alphabet of [base64.RawURLEncoding]. *)
Definition encodeURL : string :=
  "ABCDEFGHIJKLMNOPQRSTUVWXYZabcdefghijklmnopqrstuvwxyz0123456789-_".

Definition encode (v : N) : ascii :=
  match String.get (N.to_nat v) encodeURL with
  | Some c => c
  | None => "A"%char
  end.

(** [Encoding.Encode] with [NoPadding]: three bytes make four
    characters; a remainder of one byte makes two, of two bytes three. *)
Fixpoint Encode (src : list byte) : list ascii :=
  match src with
  | [] => []
  | [b0] =>
      let val := N.shiftl (Byte.to_N b0) 16 in
      [encode (N.land (N.shiftr val 18) 63); encode (N.land (N.shiftr val 12) 63)]
  | [b0; b1] =>
      let val := N.lor (N.shiftl (Byte.to_N b0) 16) (N.shiftl (Byte.to_N b1) 8) in
      [encode (N.land (N.shiftr val 18) 63); encode (N.land (N.shiftr val 12) 63);
       encode (N.land (N.shiftr val 6) 63)]
  | b0 :: b1 :: b2 :: rest =>
      let val := N.lor (N.lor (N.shiftl (Byte.to_N b0) 16) (N.shiftl (Byte.to_N b1) 8))
                       (Byte.to_N b2) in
      encode (N.land (N.shiftr val 18) 63) :: encode (N.land (N.shiftr val 12) 63) ::
      encode (N.land (N.shiftr val 6) 63) :: encode (N.land val 63) :: Encode rest
  end.

(** [RawURLEncoding.EncodeToString] *)
Definition EncodeToString (src : list byte) : string :=
  string_of_list_ascii (Encode src).

End base64.

(** ** package mtglib: the stream context *)

Module mtglib.

(** Modelled from the spec: the constant [ConnectionIDBytesLength] is
    not among the sources; the spec gives a 16-byte correlation id. *)
Definition ConnectionIDBytesLength : nat := 16.

Record streamContext : Type := {
  ctx : Context;
  ctxCancel : CancelFunc;
  clientConn : Conn;
  telegramConn : Conn;
  streamID : string;
  dc : Z;
  logger : option Logger
}.

(** [s.logger.InfoError(msg, err)]: a nil logger cannot be called. *)
Definition logger_InfoError (l : option Logger) (msg : string) (err : error) : M World unit :=
  match l with
  | Some lg => InfoError lg msg err
  | None => panic PanicNilDereference
  end.

Definition Close (s : streamContext) : M World unit :=
  cancel (ctxCancel s);;
  match clientConn s with
  | Some c =>
      err ← conn_Close c;
      match err with
      | Some e => logger_InfoError (logger s) "error closing clientConn" e
      | None => mret tt
      end
  | None => mret tt
  end;;
  match telegramConn s with
  | Some c =>
      err ← conn_Close c;
      match err with
      | Some e => logger_InfoError (logger s) "error closing telegramConn" e
      | None => mret tt
      end
  | None => mret tt
  end.

(** [s.clientConn.RemoteAddr().( *net.TCPAddr).IP] *)
Definition ClientIP (s : streamContext) : M World IP :=
  match clientConn s with
  | None => panic PanicNilDereference
  | Some c =>
      a ← conn_RemoteAddr c;
      match a with
      | AddrTCP (Some t) => mret (tcp_IP t)
      | AddrTCP None => panic PanicNilDereference
      | _ => panic PanicTypeAssertion
      end
  end.

(** [s.ctx.Err()] *)
Definition Err (s : streamContext) : M World (option error) := fun w =>
  Ok (ctx_Err (length (ctxs w)) w (ctx s)) w.

(** [s.ctx.Done()], read at once: whether the channel is closed. *)
Definition Done (s : streamContext) : M World bool := fun w =>
  Ok (match ctx_Err (length (ctxs w)) w (ctx s) with Some _ => true | None => false end) w.

Section NewStreamContext.

(** [net.IP.String] of the Go library, used only to print the client
    address into a logger field. *)
Variable IP_String : IP -> string.

Definition newStreamContext (ctx0 : Context) (logger0 : option Logger) (clientConn0 : Conn)
    : M World streamContext :=
  '(connIDBytes, err) ← crand_Read ConnectionIDBytesLength;
  match err with
  | Some e => panic (PanicError e)
  | None =>
      '(ctx1, cancel1) ← WithCancel ctx0;
      let streamCtx :=
        {| ctx := ctx1;
           ctxCancel := cancel1;
           clientConn := clientConn0;
           telegramConn := None;
           streamID := base64.EncodeToString connIDBytes;
           dc := 0;
           logger := None |} in
      match logger0 with
      | None => panic PanicNilDereference
      | Some lg =>
          ip ← ClientIP streamCtx;
          mret {| ctx := ctx streamCtx;
                  ctxCancel := ctxCancel streamCtx;
                  clientConn := clientConn streamCtx;
                  telegramConn := telegramConn streamCtx;
                  streamID := streamID streamCtx;
                  dc := dc streamCtx;
                  logger := Some (BindStr "client-ip" (IP_String ip)
                                   (BindStr "stream-id" (streamID streamCtx) lg)) |}
      end
  end.

End NewStreamContext.

End mtglib.

(** ** package antireplay *)

(** The [mtglib.AntiReplayCache] interface: one method,
    [SeenBefore([]byte) bool], which may change the cache it is called
    on. *)
Class AntiReplayCache (T : Type) := SeenBefore : list byte -> M T bool.

(** A sequence of calls against one cache, with the answers in call
    order. *)
Fixpoint calls {T} `{AntiReplayCache T} (xs : list (list byte)) : M T (list bool) :=
  match xs with
  | [] => mret []
  | x :: rest =>
      b ← SeenBefore x;
      bs ← calls rest;
      mret (b :: bs)
  end.

(** "Must not false-negative", on a cache [c]: whatever the call
    sequence, a call with an argument presented earlier answers true. *)
Definition never_false_negative {T} `{AntiReplayCache T} (c : T) : Prop :=
  forall (xs : list (list byte)) (bs : list bool) (c' : T),
    calls xs c = Ok bs c' ->
    forall (i j : nat) (x : list byte),
      i < j -> xs !! i = Some x -> xs !! j = Some x -> bs !! j = Some true.

Module antireplay.

(** [type noop struct{}] *)
Inductive noop : Type := noop_struct.

Definition noop_SeenBefore (n : noop) (_ : list byte) : bool := false.

#[global] Instance noop_AntiReplayCache : AntiReplayCache noop :=
  fun x n => Ok (noop_SeenBefore n x) n.

Definition NewNoop : noop := noop_struct.

End antireplay.

(** ** package utils: the listener *)

Module utils.

Abbreviation ListenerRef := nat (only parsing).

(** [type Listener struct { net.Listener }] *)
Record Listener : Type := { base : ListenerRef }.

(** [l.Listener.Accept()] of the embedded listener: the next outcome
    of its backlog; an accepted connection becomes a new object of the
    store.  An exhausted backlog stands for a listener that was
    closed. *)
Definition base_Accept (r : ListenerRef) : M World (ConnRef + error) := fun w =>
  match backlogs w !! r with
  | None => Panic PanicNilDereference w
  | Some [] => Ok (inr (errorString "use of closed network connection")) w
  | Some (Accepted c :: rest) =>
      Ok (inl (length (conns w)))
         (set_conns (fun cs => cs ++ [c]) (set_backlogs (fun bl => <[r := rest]> bl) w))
  | Some (AcceptFailed e :: rest) =>
      Ok (inr e) (set_backlogs (fun bl => <[r := rest]> bl) w)
  end.

(** [network.SetClientSocketOptions(conn, bufferSize)] is not among the
    sources: what it answers on a connection is the [sockoptResult] of
    that connection; when it answers nil the options are applied. *)
Definition SetClientSocketOptions (r : ConnRef) (bufferSize : Z) : M World (option error) :=
  fun w =>
  match conns w !! r with
  | None => Panic PanicNilDereference w
  | Some c =>
      match sockoptResult c with
      | Some e => Ok (Some e) w
      | None =>
          Ok None (set_conns (fun cs => <[r := {| remoteAddr := remoteAddr c;
                                                 closeScript := closeScript c;
                                                 closeCalls := closeCalls c;
                                                 sockoptResult := sockoptResult c;
                                                 tuned := true |}]> cs) w)
      end
  end.

Definition Accept (l : Listener) : M World (Conn * option error) :=
  r ← base_Accept (base l);
  match r with
  | inr err => mret (None, Some err)
  | inl conn =>
      err ← SetClientSocketOptions conn 0;
      match err with
      | Some err =>
          cerr ← conn_Close conn;
          match cerr with
          | Some err' => panic (PanicError err')
          | None => mret (None, Some (wrapError "cannot set TCP options" err))
          end
      | None => mret (Some conn, None)
      end
  end.

Section NewListener.

(** [net.Listen(network, address)] of the Go library: it answers with a
    base listener or with an error. *)
Variable net_Listen : string -> string -> M World (ListenerRef + error).

Definition NewListener (bindTo : string) (bufferSize : Z)
    : M World (option Listener * option error) :=
  r ← net_Listen "tcp" bindTo;
  match r with
  | inr err => mret (None, Some (wrapError "cannot build a base listener" err))
  | inl base0 => mret (Some {| base := base0 |}, None)
  end.

End NewListener.

End utils.

(** ** package net: networks *)

Module net.

(** [net.IPNet] *)
Record IPNet : Type := { IPNet_IP : IP; IPNet_Mask : list byte }.

(** [ip.To4()]: the 4-byte form of an IPv4 address, also when it is
    written as an IPv4-mapped 16-byte address; nil otherwise. *)
Definition To4 (ip : IP) : option IP :=
  if decide (length ip = 4) then Some ip
  else if decide (length ip = 16) then
    if forallb (Byte.eqb x00) (take 10 ip)
       && forallb (Byte.eqb xff) (take 2 (drop 10 ip))
    then Some (drop 12 ip) else None
  else None.

(** [networkNumberAndMask(n)] *)
Definition networkNumberAndMask (n : IPNet) : option (IP * list byte) :=
  let ip :=
    match To4 (IPNet_IP n) with
    | Some ip4 => Some ip4
    | None => if decide (length (IPNet_IP n) = 16) then Some (IPNet_IP n) else None
    end in
  match ip with
  | None => None
  | Some ip =>
      let m := IPNet_Mask n in
      if decide (length m = 4) then
        if decide (length ip = 4) then Some (ip, m) else None
      else if decide (length m = 16) then
        if decide (length ip = 4) then Some (ip, drop 12 m) else Some (ip, m)
      else None
  end.

Fixpoint masked_eq (nn m ip : list byte) : bool :=
  match nn, m, ip with
  | a :: nn', k :: m', b :: ip' =>
      N.eqb (N.land (Byte.to_N a) (Byte.to_N k)) (N.land (Byte.to_N b) (Byte.to_N k))
      && masked_eq nn' m' ip'
  | _, _, _ => true
  end.

(** [n.Contains(ip)].  A network that [networkNumberAndMask] rejects
    has a nil number and mask, of length 0. *)
Definition Contains (n : IPNet) (ip : IP) : bool :=
  let '(nn, m) := match networkNumberAndMask n with
                  | Some (nn, m) => (nn, m)
                  | None => ([], [])
                  end in
  let ip := match To4 ip with Some x => x | None => ip end in
  if decide (length ip = length nn) then masked_eq nn m ip else false.

End net.

(** [cidranger.AllIPv4] is 0.0.0.0/0 and [cidranger.AllIPv6] is ::/0. *)
Module cidranger.

Definition AllIPv4 : net.IPNet :=
  {| net.IPNet_IP := replicate 4 x00; net.IPNet_Mask := replicate 4 x00 |}.

Definition AllIPv6 : net.IPNet :=
  {| net.IPNet_IP := replicate 16 x00; net.IPNet_Mask := replicate 16 x00 |}.

End cidranger.

(** ** package ipblocklist *)

Module ipblocklist.

(** [time.Duration], in nanoseconds. *)
Definition Duration : Type := Z.

(** A [files.File]: [files.NewMem(nets)] holds its networks; any other
    file is named and read from the environment. *)
Inductive File : Type :=
| Mem (nets : list net.IPNet)
| External (name : string).

(** Modelled from the spec: the Firehol list ([NewFireholFromFiles],
    [Run], [Contains]) is not among the sources.  The spec gives the
    interface [Contains(ip)], [Run(refreshEvery)], [Shutdown()] and says
    that a background task refreshes the data and that an update swaps
    an immutable snapshot.  A list object is its files and the snapshot
    reads are answered from, empty until the first update. *)
Record Firehol : Type := {
  fhLogger : Logger;
  fhConcurrency : nat;
  fhFiles : list File;
  fhSnapshot : list net.IPNet
}.

Abbreviation FireholRef := nat (only parsing).

(** An [mtglib.IPBlocklist] interface value: nil, the no-op list, or a
    [*Firehol], which may be a nil pointer. *)
Inductive IPBlocklist : Type :=
| BlNil
| BlNoop
| BlFirehol (p : option FireholRef).

(** A goroutine started with [go list.Run(updateEach)]. *)
Inductive Goroutine : Type :=
| GoRun (list : IPBlocklist) (updateEach : Duration).

(** The process state the constructors of package cli work on: the
    list objects, the goroutines started so far, and what the
    environment holds under a file name. *)
Record Proc : Type := {
  lists : list Firehol;
  goroutines : list Goroutine;
  external : string -> list net.IPNet
}.

Definition set_lists (f : list Firehol -> list Firehol) (p : Proc) : Proc :=
  {| lists := f (lists p); goroutines := goroutines p; external := external p |}.

Definition set_goroutines (f : list Goroutine -> list Goroutine) (p : Proc) : Proc :=
  {| lists := lists p; goroutines := f (goroutines p); external := external p |}.

(** Modelled from the spec: [ipblocklist.NewNoop] is not among the
    sources; its test asserts that [Contains] answers false. *)
Definition NewNoop : IPBlocklist := BlNoop.

(** Modelled from the spec: [NewFireholFromFiles(logger, concurrency,
    files, callback)] makes a list object over the files, with nothing
    loaded yet, and no error. *)
Definition NewFireholFromFiles {Callback : Type} (logger : Logger)
    (downloadConcurrency : nat) (files : list File) (updateCallback : Callback)
    : M Proc (option FireholRef * option error) := fun p =>
  Ok (Some (length (lists p)), None)
     (set_lists (fun fs => fs ++ [{| fhLogger := logger;
                                    fhConcurrency := downloadConcurrency;
                                    fhFiles := files;
                                    fhSnapshot := [] |}]) p).

(** [go list.Run(updateEach)]: the goroutine is started; calling a
    method of a nil interface panics on the spot. *)
Definition go_Run (list : IPBlocklist) (updateEach : Duration) : M Proc unit :=
  match list with
  | BlNil => panic PanicNilDereference
  | _ => modify (set_goroutines (fun gs => gs ++ [GoRun list updateEach]))
  end.

Definition file_nets (p : Proc) (f : File) : list net.IPNet :=
  match f with
  | Mem nets => nets
  | External name => external p name
  end.

(** Modelled from the spec: one refresh of a list, "updates swap an
    immutable snapshot": the new snapshot is what the files hold. *)
Definition update (r : FireholRef) (p : Proc) : Proc :=
  match lists p !! r with
  | Some f =>
      set_lists (fun fs => <[r := {| fhLogger := fhLogger f;
                                    fhConcurrency := fhConcurrency f;
                                    fhFiles := fhFiles f;
                                    fhSnapshot := concat (map (file_nets p) (fhFiles f)) |}]> fs) p
  | None => p
  end.

(** Modelled from the spec: the background tasks.  [steps p rs q]: from
    [p] the lists [rs] were refreshed, in this order, and the state is
    [q].  Only a list whose [Run] goroutine was started is ever
    refreshed. *)
Inductive steps (p : Proc) : list FireholRef -> Proc -> Prop :=
| steps_done : steps p [] p
| steps_update (r : FireholRef) (d : Duration) (rs : list FireholRef) (q : Proc) :
    In (GoRun (BlFirehol (Some r)) d) (goroutines p) ->
    steps (update r p) rs q ->
    steps p (r :: rs) q.

(** Modelled from the spec: [list.Contains(ip)].  The no-op list holds
    nothing; a Firehol list answers from its current snapshot. *)
Definition Contains (list : IPBlocklist) (ip : IP) : M Proc bool :=
  match list with
  | BlNil => panic PanicNilDereference
  | BlNoop => mret false
  | BlFirehol None => panic PanicNilDereference
  | BlFirehol (Some r) => fun p =>
      match lists p !! r with
      | Some f => Ok (existsb (fun n => net.Contains n ip) (fhSnapshot f)) p
      | None => Panic PanicNilDereference p
      end
  end.

(** Modelled from the spec: the rule of the IP gate, "a connection
    passes iff allowlist contains the IP and blocklist does not". *)
Definition passes (allowlist blocklist : IPBlocklist) (ip : IP) : M Proc bool :=
  a ← Contains allowlist ip;
  b ← Contains blocklist ip;
  mret (a && negb b).

End ipblocklist.

(** ** package config *)

Module config.

(** Modelled from the spec: the option types of package config are not
    among the sources.  An option is absent or holds a value, and
    [Get(default)] answers the value, or the default when absent. *)
Definition Get {A} (v : option A) (defaultValue : A) : A :=
  match v with
  | Some a => a
  | None => defaultValue
  end.

Definition TypeBool : Type := option bool.
Definition TypeBytes : Type := option N.
Definition TypeConcurrency : Type := option nat.
Definition TypeDuration : Type := option ipblocklist.Duration.

(** A blocklist URI: its text, and whether it is a remote one. *)
Record TypeBlocklistURI : Type := {
  uriString : string;
  IsRemote : bool
}.

Record ListConfig : Type := {
  Enabled : TypeBool;
  URLs : list TypeBlocklistURI;
  UpdateEach : TypeDuration;
  DownloadConcurrency : TypeConcurrency
}.

End config.

(** ** package cli *)

Module cli.

Import config ipblocklist.

(** What package cli uses and the sources do not hold: the float type
    of the error rate, the network and callback types, the documented
    defaults, and the constructor of a Firehol list over URLs. *)
Class Externals : Type := {
  float64 : Type;
  Network : Type;
  FireholUpdateCallback : Type;
  DefaultStableBloomFilterMaxSize : N;
  DefaultStableBloomFilterErrorRate : float64;
  DefaultFireholUpdateEach : Duration;
  NewFirehol : Logger -> Network -> nat -> list string -> list string ->
               FireholUpdateCallback -> M Proc (option FireholRef * option error)
}.

Section Constructors.

Context `{Externals}.

Record AntiReplayConfig : Type := {
  AntiReplay_Enabled : TypeBool;
  AntiReplay_MaxSize : TypeBytes;
  AntiReplay_ErrorRate : option float64
}.

Record DefenseConfig : Type := {
  AntiReplay : AntiReplayConfig;
  Blocklist : ListConfig;
  Allowlist : ListConfig
}.

Record Config : Type := { Defense : DefenseConfig }.

(** Modelled from the spec: [antireplay.NewStableBloomFilter] is not
    among the sources; the spec has "a stable Bloom filter
    parameterised by (max_size, error_rate)". *)
Record stableBloomFilter : Type := {
  sbfMaxSize : N;
  sbfErrorRate : float64
}.

(** The value [makeAntiReplayCache] returns, by dynamic type. *)
Inductive AntiReplayCacheValue : Type :=
| CacheNoop (n : antireplay.noop)
| CacheStableBloomFilter (f : stableBloomFilter).

Definition NewStableBloomFilter (byteSize : N) (errorRate : float64) : AntiReplayCacheValue :=
  CacheStableBloomFilter {| sbfMaxSize := byteSize; sbfErrorRate := errorRate |}.

Definition makeAntiReplayCache (conf : Config) : AntiReplayCacheValue :=
  if negb (Get (AntiReplay_Enabled (AntiReplay (Defense conf))) false) then
    CacheNoop antireplay.NewNoop
  else
    NewStableBloomFilter
      (Get (AntiReplay_MaxSize (AntiReplay (Defense conf))) DefaultStableBloomFilterMaxSize)
      (Get (AntiReplay_ErrorRate (AntiReplay (Defense conf))) DefaultStableBloomFilterErrorRate).

(** The loop of [makeIPBlocklist] over [conf.URLs]. *)
Fixpoint splitURLs (urls : list TypeBlocklistURI) (remoteURLs localFiles : list string)
    : list string * list string :=
  match urls with
  | [] => (remoteURLs, localFiles)
  | v :: rest =>
      if IsRemote v then splitURLs rest (remoteURLs ++ [uriString v]) localFiles
      else splitURLs rest remoteURLs (localFiles ++ [uriString v])
  end.

Definition makeIPBlocklist (conf : ListConfig) (logger : Logger) (ntw : Network)
    (updateCallback : FireholUpdateCallback) : M Proc (IPBlocklist * option error) :=
  if negb (Get (Enabled conf) false) then
    mret (NewNoop, None)
  else
    let '(remoteURLs, localFiles) := splitURLs (URLs conf) [] [] in
    '(blocklist, err) ← NewFirehol (Named "ipblockist" logger) ntw
                          (Get (DownloadConcurrency conf) 1) remoteURLs localFiles
                          updateCallback;
    match err with
    | Some err => mret (BlNil, Some (wrapError "incorrect parameters for firehol" err))
    | None =>
        go_Run (BlFirehol blocklist) (Get (UpdateEach conf) DefaultFireholUpdateEach);;
        mret (BlFirehol blocklist, None)
    end.

Definition makeIPAllowlist (conf : ListConfig) (logger : Logger) (ntw : Network)
    (updateCallback : FireholUpdateCallback) : M Proc (IPBlocklist * option error) :=
  '(allowlist, err) ←
    (if negb (Get (Enabled conf) false) then
       '(fh, err) ← NewFireholFromFiles (Named "ipblocklist" logger) 1
                      [Mem [cidranger.AllIPv4; cidranger.AllIPv6]] updateCallback;
       go_Run (BlFirehol fh) (Get (UpdateEach conf) DefaultFireholUpdateEach);;
       mret (BlFirehol fh, err)
     else
       makeIPBlocklist conf logger ntw updateCallback);
  match err with
  | Some err => mret (BlNil, Some (wrapError "cannot build allowlist" err))
  | None => mret (allowlist, None)
  end.

End Constructors.

(** What [makeNetwork] uses and the sources do not hold: the types of
    dialers, networks and URLs, the defaults of package network, the Go
    library's [net.ParseIP] and [net.IP.String], and the four
    constructors, each answering with a value or with an error. *)
Class NetworkExternals : Type := {
  Dialer : Type;
  NetworkValue : Type;
  URL : Type;
  DefaultTimeout : Duration;
  DefaultHTTPTimeout : Duration;
  DefaultDOHHostname : string;
  ParseIP : string -> IP;
  IP_String : IP -> string;
  NewDefaultDialer : Duration -> Z -> Dialer + error;
  NewSocks5Dialer : Dialer -> URL -> Dialer + error;
  NewLoadBalancedSocks5Dialer : Dialer -> list URL -> Dialer + error;
  NewNetwork : Dialer -> string -> string -> Duration -> NetworkValue + error
}.

Section Network.

Context `{NetworkExternals}.

(** [config.TypeProxyURL]: a [*url.URL] or nil; [Get(default)] answers
    the URL, or the default when it is nil. *)
Definition TypeProxyURL : Type := option URL.

Definition TypeProxyURL_Get (v : TypeProxyURL) (defaultValue : option URL) : option URL :=
  match v with
  | Some u => Some u
  | None => defaultValue
  end.

(** [conf.Network], the part of the configuration [makeNetwork] reads. *)
Record NetworkConfig : Type := {
  Timeout_TCP : TypeDuration;
  Timeout_HTTP : TypeDuration;
  DOHIP : option IP;
  Proxies : list TypeProxyURL
}.

(** The loop of [makeNetwork] over [conf.Network.Proxies]. *)
Fixpoint collectProxies (proxies : list TypeProxyURL) (proxyURLs : list URL) : list URL :=
  match proxies with
  | [] => proxyURLs
  | v :: rest =>
      match TypeProxyURL_Get v None with
      | Some value => collectProxies rest (proxyURLs ++ [value])
      | None => collectProxies rest proxyURLs
      end
  end.

Definition makeNetwork (conf : NetworkConfig) (version : string) : NetworkValue + error :=
  let tcpTimeout := Get (Timeout_TCP conf) DefaultTimeout in
  let httpTimeout := Get (Timeout_HTTP conf) DefaultHTTPTimeout in
  let dohIP := IP_String (Get (DOHIP conf) (ParseIP DefaultDOHHostname)) in
  let userAgent := ("mtg/" ++ version)%string in
  match NewDefaultDialer tcpTimeout 0 with
  | inr err => inr (wrapError "cannot build a default dialer" err)
  | inl baseDialer =>
      match Proxies conf with
      | [] => NewNetwork baseDialer userAgent dohIP httpTimeout
      | _ :: _ =>
          let proxyURLs := collectProxies (Proxies conf) [] in
          match proxyURLs with
          | [proxyURL] =>
              match NewSocks5Dialer baseDialer proxyURL with
              | inr err => inr (wrapError "cannot build socks5 dialer" err)
              | inl socksDialer => NewNetwork socksDialer userAgent dohIP httpTimeout
              end
          | _ =>
              match NewLoadBalancedSocks5Dialer baseDialer proxyURLs with
              | inr err => inr (wrapError "cannot build socks5 dialer" err)
              | inl socksDialer => NewNetwork socksDialer userAgent dohIP httpTimeout
              end
          end
      end
  end.

End Network.

(** What [makeEventStream] uses and the sources do not hold: the
    observer factories of package stats and their defaults. *)
Class StatsExternals : Type := {
  StatsdFactory : Type;
  PrometheusFactory : Type;
  DefaultStatsdMetricPrefix : string;
  DefaultStatsdTagFormat : string;
  DefaultMetricPrefix : string;
  NewStatsd : string -> Logger -> string -> string -> StatsdFactory + error;
  NewPrometheus : string -> string -> PrometheusFactory
}.

Section EventStream.

Context `{StatsExternals}.

Record StatsdConfig : Type := {
  StatsD_Enabled : TypeBool;
  StatsD_Address : option string;
  StatsD_MetricPrefix : option string;
  StatsD_TagFormat : option string
}.

Record PrometheusConfig : Type := {
  Prometheus_Enabled : TypeBool;
  Prometheus_BindTo : option string;
  Prometheus_HTTPPath : option string;
  Prometheus_MetricPrefix : option string
}.

(** [conf.Stats], the part of the configuration [makeEventStream]
    reads. *)
Record StatsConfig : Type := {
  StatsD : StatsdConfig;
  Prometheus : PrometheusConfig
}.

(** An [events.ObserverFactory]: the [Make] method of one of the two
    factories. *)
Inductive ObserverFactory : Type :=
| StatsdMake (f : StatsdFactory)
| PrometheusMake (f : PrometheusFactory).

(** The value [makeEventStream] returns: what [events.NewNoopStream]
    and [events.NewEventStream] make. *)
Inductive EventStreamValue : Type :=
| NoopStream
| EventStream (factories : list ObserverFactory).

(** The state [makeEventStream] works on: which addresses
    [net.Listen] refuses, the listeners opened so far by address, and
    the [prometheus.Serve] goroutines started, each with the index of
    its listener. *)
Record Sockets : Type := {
  refused : string -> option error;
  listening : list string;
  serving : list (PrometheusFactory * nat)
}.

(** [net.Listen("tcp", address)] *)
Definition net_Listen (address : string) : M Sockets (nat + error) := fun w =>
  match refused w address with
  | Some e => Ok (inr e) w
  | None =>
      Ok (inl (length (listening w)))
         {| refused := refused w; listening := listening w ++ [address];
            serving := serving w |}
  end.

(** [go prometheus.Serve(listener)] *)
Definition go_Serve (p : PrometheusFactory) (listener : nat) : M Sockets unit :=
  modify (fun w => {| refused := refused w; listening := listening w;
                      serving := serving w ++ [(p, listener)] |}).

Definition makeEventStream (conf : StatsConfig) (logger : Logger)
    : M Sockets (option EventStreamValue * option error) :=
  let factories : list ObserverFactory := [] in
  r1 ← (if Get (StatsD_Enabled (StatsD conf)) false then
          match NewStatsd (Get (StatsD_Address (StatsD conf)) "")
                          (Named "statsd" logger)
                          (Get (StatsD_MetricPrefix (StatsD conf)) DefaultStatsdMetricPrefix)
                          (Get (StatsD_TagFormat (StatsD conf)) DefaultStatsdTagFormat) with
          | inr err => mret (inr (wrapError "cannot build statsd observer" err))
          | inl statsdFactory => mret (inl (factories ++ [StatsdMake statsdFactory]))
          end
        else mret (inl factories));
  match r1 with
  | inr err => mret (None, Some err)
  | inl factories =>
      r2 ← (if Get (Prometheus_Enabled (Prometheus conf)) false then
              let prometheus :=
                NewPrometheus
                  (Get (Prometheus_MetricPrefix (Prometheus conf)) DefaultMetricPrefix)
                  (Get (Prometheus_HTTPPath (Prometheus conf)) "/") in
              l ← net_Listen (Get (Prometheus_BindTo (Prometheus conf)) "");
              match l with
              | inr err =>
                  mret (inr (wrapError "cannot start a listener for prometheus" err))
              | inl listener =>
                  go_Serve prometheus listener;;
                  mret (inl (factories ++ [PrometheusMake prometheus]))
              end
            else mret (inl factories));
      match r2 with
      | inr err => mret (None, Some err)
      | inl factories =>
          match factories with
          | _ :: _ => mret (Some (EventStream factories), None)
          | [] => mret (Some NoopStream, None)
          end
      end
  end.

End EventStream.

End cli.

(** ** Reading the store *)

(** How often [Close] was called on the connection [r] so far. *)
Definition closeCallsOf (w : World) (r : ConnRef) : nat :=
  match conns w !! r with
  | Some c => closeCalls c
  | None => 0
  end.

(** The connections a stream context holds, nil legs left out. *)
Definition conn_refs (s : mtglib.streamContext) : list ConnRef :=
  option_list (mtglib.clientConn s) ++ option_list (mtglib.telegramConn s).

(** The connection object [c] after [n] more calls of [Close]. *)
Definition bump (n : nat) (c : ConnObj) : ConnObj :=
  {| remoteAddr := remoteAddr c;
     closeScript := closeScript c;
     closeCalls := n + closeCalls c;
     sockoptResult := sockoptResult c;
     tuned := tuned c |}.

(** [closes rs w w']: from [w] to [w'] each connection was closed as
    often as it occurs in [rs], the log has grown by what the closes
    reported, and nothing else has changed. *)
Definition closes (rs : list ConnRef) (w w' : World) : Prop :=
  ctxs w' = ctxs w /\
  randPool w' = randPool w /\
  randErr w' = randErr w /\
  backlogs w' = backlogs w /\
  (exists extra, logs w' = logs w ++ extra) /\
  forall r, conns w' !! r = bump (count_occ Nat.eq_dec rs r) <$> conns w !! r.

(** The contexts after the cancel function [f] was called. *)
Definition cancelled (f : CancelFunc) (cs : list CtxObj) : list CtxObj :=
  match cs !! f with
  | Some o => <[f := {| ctxParent := ctxParent o; ctxDone := true |}]> cs
  | None => cs
  end.

(** The TCP address of the peer of a connection, when it has one. *)
Definition tcp_peer (w : World) (c : Conn) : option TCPAddrStruct :=
  match c with
  | Some r =>
      match conns w !! r with
      | Some o =>
          match remoteAddr o with
          | AddrTCP (Some t) => Some t
          | _ => None
          end
      | None => None
      end
  | None => None
  end.

(** The world after [newStreamContext] drew the id and derived the
    context from [ctx0]. *)
Definition drawn (ctx0 : Context) (w : World) : World :=
  set_ctxs (fun cs => cs ++ [{| ctxParent := ctx0; ctxDone := ctx_done w ctx0 |}])
           (set_randPool (drop mtglib.ConnectionIDBytesLength) w).

(** A stream context is well formed in a world when its connections
    are objects of the store and it has a logger, as every context
    that [newStreamContext] returns has. *)
Definition well_formed (w : World) (s : mtglib.streamContext) : Prop :=
  (exists lg, mtglib.logger s = Some lg) /\
  mtglib.ctxCancel s < length (ctxs w) /\
  forall r, In r (conn_refs s) -> r < length (conns w).

(** "Calling close twice is a no-op": a second [Close] returns and
    leaves the world as the first one left it. *)
Definition Close_twice_is_noop (s : mtglib.streamContext) (w : World) : Prop :=
  forall w1, mtglib.Close s w = Ok tt w1 -> mtglib.Close s w1 = Ok tt w1.

(** "On socket-tuning failure the connection is closed and Accept
    returns an error": whenever the next connection of the backlog
    cannot be tuned, [Accept] returns no connection and an error, and
    the connection was closed. *)
Definition Accept_errors_on_tuning_failure (l : utils.Listener) (w : World) : Prop :=
  forall c rest e,
    backlogs w !! utils.base l = Some (Accepted c :: rest) ->
    sockoptResult c = Some e ->
    exists err w',
      utils.Accept l w = Ok (None, Some err) w' /\
      closeCallsOf w' (length (conns w)) = S (closeCalls c).

(** The list [r] of [p] reads the files [fs]. *)
Definition reads (p : ipblocklist.Proc) (r : nat) (fs : list ipblocklist.File) : Prop :=
  exists f, ipblocklist.lists p !! r = Some f /\ ipblocklist.fhFiles f = fs.

(** The list [r] of [p] reads the files [fs] and has loaded them. *)
Definition loaded (p : ipblocklist.Proc) (r : nat) (fs : list ipblocklist.File) : Prop :=
  exists f, ipblocklist.lists p !! r = Some f /\ ipblocklist.fhFiles f = fs /\
            ipblocklist.fhSnapshot f = concat (map (ipblocklist.file_nets p) fs).

(** ** Concrete inputs *)

Module demo.

(** A TCP connection: the first [Close] succeeds, every later one
    reports that the connection is closed already. *)
Definition tcp_close (n : nat) : option error :=
  match n with
  | 0 => None
  | S _ => Some (errorString "use of closed network connection")
  end.

Definition peer : TCPAddrStruct :=
  {| tcp_IP := [x0a; x00; x00; x0a]; tcp_Port := 40000; tcp_Zone := "" |}.

Definition client : ConnObj :=
  {| remoteAddr := AddrTCP (Some peer); closeScript := tcp_close; closeCalls := 0;
     sockoptResult := None; tuned := true |}.

Definition telegram : ConnObj :=
  {| remoteAddr := AddrTCP (Some {| tcp_IP := [x95; x9a; xaf; x32]; tcp_Port := 443;
                                    tcp_Zone := "" |});
     closeScript := tcp_close; closeCalls := 0; sockoptResult := None; tuned := false |}.

Definition unix_client : ConnObj :=
  {| remoteAddr := AddrUnix "/run/mtg.sock"; closeScript := tcp_close; closeCalls := 0;
     sockoptResult := None; tuned := false |}.

Definition pool : list byte :=
  [x00; x01; x02; x03; x04; x05; x06; x07; x08; x09; x0a; x0b; x0c; x0d; x0e; x0f;
   xff; xfe].

Definition world : World :=
  {| conns := [client; telegram; unix_client];
     ctxs := [{| ctxParent := Background; ctxDone := false |}];
     randPool := pool;
     randErr := errorString "unexpected EOF";
     logs := [];
     backlogs := [] |}.

Definition root_logger : Logger := {| logName := []; logFields := [] |}.

(** A stream context with both legs assigned. *)
Definition stream : mtglib.streamContext :=
  {| mtglib.ctx := CancelCtx 0; mtglib.ctxCancel := 0;
     mtglib.clientConn := Some 0; mtglib.telegramConn := Some 1;
     mtglib.streamID := "AAECAwQFBgcICQoLDA0ODw"; mtglib.dc := 2;
     mtglib.logger := Some root_logger |}.


Definition closed_once : World := state_of (mtglib.Close stream world).
Definition closed_twice : World := state_of (mtglib.Close stream closed_once).

(** A connection that cannot be tuned and closes well, and one on
    which the descriptor is bad: tuning and closing both fail. *)
Definition untunable : ConnObj :=
  {| remoteAddr := AddrTCP (Some peer); closeScript := tcp_close; closeCalls := 0;
     sockoptResult := Some (errorString "setsockopt: protocol not available");
     tuned := false |}.

Definition bad_descriptor : ConnObj :=
  {| remoteAddr := AddrTCP (Some peer);
     closeScript := fun _ => Some (errorString "close: bad file descriptor");
     closeCalls := 0;
     sockoptResult := Some (errorString "setsockopt: bad file descriptor");
     tuned := false |}.

Definition listening : World :=
  {| conns := [];
     ctxs := [];
     randPool := [];
     randErr := errorString "unexpected EOF";
     logs := [];
     backlogs := [[Accepted bad_descriptor]; [Accepted untunable; Accepted client]] |}.

Definition listener0 : utils.Listener := {| utils.base := 0 |}.
Definition listener1 : utils.Listener := {| utils.base := 1 |}.

(** An instance of what package cli takes from outside: decimal
    fractions for floats (mantissa and exponent of ten), the defaults
    1 MiB, 0.001 and six hours, and a Firehol constructor that makes a
    list over the given names and rejects an empty one. *)
Definition externals : cli.Externals :=
  {| cli.float64 := (Z * Z)%type;
     cli.Network := unit;
     cli.FireholUpdateCallback := unit;
     cli.DefaultStableBloomFilterMaxSize := 1048576%N;
     cli.DefaultStableBloomFilterErrorRate := (1, -3)%Z;
     cli.DefaultFireholUpdateEach := 21600000000000%Z;
     cli.NewFirehol := fun lg _ n remoteURLs localFiles _ p =>
       match remoteURLs ++ localFiles with
       | [] => Ok (None, Some (errorString "no sources")) p
       | names =>
           Ok (Some (length (ipblocklist.lists p)), None)
              (ipblocklist.set_lists
                 (fun fs => fs ++ [{| ipblocklist.fhLogger := lg;
                                      ipblocklist.fhConcurrency := n;
                                      ipblocklist.fhFiles := map ipblocklist.External names;
                                      ipblocklist.fhSnapshot := [] |}]) p)
       end |}.

#[local] Existing Instance externals.

Definition disabled_list : config.ListConfig :=
  {| config.Enabled := None; config.URLs := [];
     config.UpdateEach := None; config.DownloadConcurrency := None |}.

Definition config_off : cli.Config :=
  {| cli.Defense :=
       {| cli.AntiReplay := {| cli.AntiReplay_Enabled := Some false;
                               cli.AntiReplay_MaxSize := Some 4096%N;
                               cli.AntiReplay_ErrorRate := None |};
          cli.Blocklist := disabled_list;
          cli.Allowlist := disabled_list |} |}.

Definition config_on : cli.Config :=
  {| cli.Defense :=
       {| cli.AntiReplay := {| cli.AntiReplay_Enabled := Some true;
                               cli.AntiReplay_MaxSize := None;
                               cli.AntiReplay_ErrorRate := Some (5, -2)%Z |};
          cli.Blocklist := disabled_list;
          cli.Allowlist := disabled_list |} |}.

Definition proc : ipblocklist.Proc :=
  {| ipblocklist.lists := []; ipblocklist.goroutines := [];
     ipblocklist.external := fun _ => [] |}.

(** Dotted decimal, enough to print the addresses used here. *)
Definition IP_String (ip : IP) : string :=
  match ip with
  | [x0a; x00; x00; x0a] => "10.0.0.10"
  | _ => "?"
  end.

End demo.


(** ** Further reading of the store *)

(** The contexts form a forest that grows at the end: whatever a
    context was derived from was there before it. *)
Definition ctxs_wf (cs : list CtxObj) : Prop :=
  forall r o, cs !! r = Some o ->
    match ctxParent o with
    | Background => True
    | CancelCtx p => p < r
    end.

(** A context value refers to a context of the world. *)
Definition ctx_valid (w : World) (c : Context) : Prop :=
  match c with
  | Background => True
  | CancelCtx r => r < length (ctxs w)
  end.

(** The connection object [c] once its socket options are applied. *)
Definition tune (c : ConnObj) : ConnObj :=
  {| remoteAddr := remoteAddr c;
     closeScript := closeScript c;
     closeCalls := closeCalls c;
     sockoptResult := sockoptResult c;
     tuned := true |}.

(** ** Further concrete inputs *)

Module demo2.

(** A world with random bytes for two stream ids and two clients. *)
Definition world : World :=
  {| conns := [demo.client; demo.telegram];
     ctxs := [{| ctxParent := Background; ctxDone := false |}];
     randPool := demo.pool ++ demo.pool;
     randErr := errorString "unexpected EOF";
     logs := [];
     backlogs := [] |}.

Definition after_first : World := drawn (CancelCtx 0) world.

Definition first : mtglib.streamContext :=
  {| mtglib.ctx := CancelCtx 1; mtglib.ctxCancel := 1;
     mtglib.clientConn := Some 0; mtglib.telegramConn := None;
     mtglib.streamID := "AAECAwQFBgcICQoLDA0ODw"; mtglib.dc := 0;
     mtglib.logger :=
       Some {| logName := [];
               logFields := [("stream-id", "AAECAwQFBgcICQoLDA0ODw");
                             ("client-ip", "10.0.0.10")] |} |}.

Definition after_second : World := drawn (CancelCtx 0) after_first.

Definition second : mtglib.streamContext :=
  {| mtglib.ctx := CancelCtx 2; mtglib.ctxCancel := 2;
     mtglib.clientConn := Some 1; mtglib.telegramConn := None;
     mtglib.streamID := "__4AAQIDBAUGBwgJCgsMDQ"; mtglib.dc := 0;
     mtglib.logger :=
       Some {| logName := [];
               logFields := [("stream-id", "__4AAQIDBAUGBwgJCgsMDQ");
                             ("client-ip", "?")] |} |}.

(** The world when the second context is derived from the first
    instead; the context value is the same. *)
Definition after_derived : World := drawn (CancelCtx 1) after_first.

(** A listener with two connections that can be tuned behind one that
    cannot. *)
Definition accepting : World :=
  {| conns := [demo.telegram];
     ctxs := [];
     randPool := [];
     randErr := errorString "unexpected EOF";
     logs := [];
     backlogs := [[Accepted demo.untunable; Accepted demo.client; Accepted demo.telegram];
                  [AcceptFailed (errorString "accept: too many open files")]] |}.

(** [net.Listen] that refuses port 1 and otherwise opens a listener
    on which one client is waiting. *)
Definition net_Listen (network address : string) : M World (nat + error) := fun w =>
  if String.eqb address ":1" then Ok (inr (errorString "listen: permission denied")) w
  else Ok (inl (length (backlogs w)))
          (set_backlogs (fun bl => bl ++ [[Accepted demo.client]]) w).

Definition listened : World :=
  set_backlogs (fun bl => bl ++ [[Accepted demo.client]]) accepting.

End demo2.

(** The place of a character in the alphabet of [base64.RawURLEncoding],
    as the [decodeMap] of the Go encoder holds it. *)
Fixpoint index_from (n : N) (s : string) (c : ascii) : option N :=
  match s with
  | EmptyString => None
  | String a s' => if Ascii.eqb a c then Some n else index_from (n + 1) s' c
  end.

Definition decodeMap (c : ascii) : option N := index_from 0 base64.encodeURL c.

Module demo3.

(** A blocklist configuration with remote and local sources. *)
Definition enabled_list : config.ListConfig :=
  {| config.Enabled := Some true;
     config.URLs := [{| config.uriString := "https://a.example/list";
                        config.IsRemote := true |};
                     {| config.uriString := "/etc/mtg/local.txt";
                        config.IsRemote := false |};
                     {| config.uriString := "https://b.example/list";
                        config.IsRemote := true |}];
     config.UpdateEach := Some 3600000000000%Z;
     config.DownloadConcurrency := None |}.

(** An enabled list without sources, which the constructor of
    [demo.externals] rejects. *)
Definition empty_list : config.ListConfig :=
  {| config.Enabled := Some true; config.URLs := [];
     config.UpdateEach := None; config.DownloadConcurrency := None |}.

(** Dialers as terms, networks as the arguments they were made from;
    a socks5 dialer cannot be made for the URL "bad". *)
Inductive dialer : Type :=
| Direct (timeout : Z)
| Socks5 (base : dialer) (url : string)
| LoadBalanced (base : dialer) (urls : list string).

Definition network_externals : cli.NetworkExternals :=
  {| cli.Dialer := dialer;
     cli.NetworkValue := (dialer * string * string * Z)%type;
     cli.URL := string;
     cli.DefaultTimeout := 10000000000%Z;
     cli.DefaultHTTPTimeout := 10000000000%Z;
     cli.DefaultDOHHostname := "9.9.9.9";
     cli.ParseIP := fun _ => [x09; x09; x09; x09];
     cli.IP_String := fun ip =>
       match ip with
       | [x09; x09; x09; x09] => "9.9.9.9"
       | _ => "?"
       end;
     cli.NewDefaultDialer := fun timeout _ => inl (Direct timeout);
     cli.NewSocks5Dialer := fun base url =>
       if String.eqb url "bad" then inr (errorString "unsupported scheme")
       else inl (Socks5 base url);
     cli.NewLoadBalancedSocks5Dialer := fun base urls => inl (LoadBalanced base urls);
     cli.NewNetwork := fun d userAgent dohIP httpTimeout =>
       inl (d, userAgent, dohIP, httpTimeout) |}.

#[local] Existing Instance network_externals.

(** Three proxy entries of which only the second is set, and three
    that are all nil. *)
Definition one_proxy : cli.NetworkConfig :=
  {| cli.Timeout_TCP := None; cli.Timeout_HTTP := None; cli.DOHIP := None;
     cli.Proxies := [None; Some "socks5://127.0.0.1:1080"; None] |}.

Definition nil_proxies : cli.NetworkConfig :=
  {| cli.Timeout_TCP := None; cli.Timeout_HTTP := None; cli.DOHIP := None;
     cli.Proxies := [None; None; None] |}.

(** Factories as the arguments they were made from; statsd needs an
    address. *)
Definition stats_externals : cli.StatsExternals :=
  {| cli.StatsdFactory := (string * string * string)%type;
     cli.PrometheusFactory := (string * string)%type;
     cli.DefaultStatsdMetricPrefix := "mtg";
     cli.DefaultStatsdTagFormat := "datadog";
     cli.DefaultMetricPrefix := "mtg";
     cli.NewStatsd := fun address _ prefix format =>
       if String.eqb address "" then inr (errorString "empty address")
       else inl (address, prefix, format);
     cli.NewPrometheus := fun prefix path => (prefix, path) |}.

#[local] Existing Instance stats_externals.

Definition both_stats : cli.StatsConfig :=
  {| cli.StatsD := {| cli.StatsD_Enabled := Some true;
                      cli.StatsD_Address := Some "127.0.0.1:8125";
                      cli.StatsD_MetricPrefix := None;
                      cli.StatsD_TagFormat := None |};
     cli.Prometheus := {| cli.Prometheus_Enabled := Some true;
                          cli.Prometheus_BindTo := Some "0.0.0.0:3129";
                          cli.Prometheus_HTTPPath := None;
                          cli.Prometheus_MetricPrefix := None |} |}.

(** Statsd without an address, next to an enabled prometheus. *)
Definition bad_statsd : cli.StatsConfig :=
  {| cli.StatsD := {| cli.StatsD_Enabled := Some true;
                      cli.StatsD_Address := None;
                      cli.StatsD_MetricPrefix := None;
                      cli.StatsD_TagFormat := None |};
     cli.Prometheus := cli.Prometheus both_stats |}.

Definition sockets : cli.Sockets :=
  {| cli.refused := fun _ => None; cli.listening := []; cli.serving := [] |}.

(** The same where the prometheus address is taken. *)
Definition sockets_refusing : cli.Sockets :=
  {| cli.refused := fun address =>
       if String.eqb address "0.0.0.0:3129"
       then Some (errorString "listen: address already in use") else None;
     cli.listening := []; cli.serving := [] |}.

(** What [makeEventStream] makes of [both_stats]. *)
Definition both_stream : cli.EventStreamValue :=
  cli.EventStream [cli.StatsdMake ("127.0.0.1:8125", "mtg", "datadog");
                   cli.PrometheusMake ("mtg", "/")].

Definition sockets_serving : cli.Sockets :=
  {| cli.refused := fun _ => None;
     cli.listening := ["0.0.0.0:3129"];
     cli.serving := [(("mtg", "/"), 0)] |}.

End demo3.

(** ** Parts of makeEventStream *)

Section EventStreamParts.

Context `{cli.StatsExternals}.

(** What the first half of [makeEventStream] asks [stats.NewStatsd]
    for. *)
Definition statsd_of (conf : cli.StatsConfig) (logger : Logger)
    : cli.StatsdFactory + error :=
  cli.NewStatsd (config.Get (cli.StatsD_Address (cli.StatsD conf)) "")
    (Named "statsd" logger)
    (config.Get (cli.StatsD_MetricPrefix (cli.StatsD conf)) cli.DefaultStatsdMetricPrefix)
    (config.Get (cli.StatsD_TagFormat (cli.StatsD conf)) cli.DefaultStatsdTagFormat).

(** The prometheus factory its second half makes. *)
Definition prometheus_of (conf : cli.StatsConfig) : cli.PrometheusFactory :=
  cli.NewPrometheus
    (config.Get (cli.Prometheus_MetricPrefix (cli.Prometheus conf)) cli.DefaultMetricPrefix)
    (config.Get (cli.Prometheus_HTTPPath (cli.Prometheus conf)) "/").

End EventStreamParts.
(** ** The monad *)

Lemma bind_Ok {S A B} (m : M S A) (f : A -> M S B) (s s' : S) (a : A) :
  m s = Ok a s' -> (m ≫= f) s = f a s'.
Proof. intros E. unfold mbind, M_bind. now rewrite E. Qed.

Lemma bind_Panic {S A B} (m : M S A) (f : A -> M S B) (s s' : S) (p : panicValue) :
  m s = Panic p s' -> (m ≫= f) s = Panic p s'.
Proof. intros E. unfold mbind, M_bind. now rewrite E. Qed.

Lemma bump_0 (c : ConnObj) : bump 0 c = c.
Proof. now destruct c. Qed.

Lemma bump_bump (n m : nat) (c : ConnObj) : bump n (bump m c) = bump (n + m) c.
Proof. unfold bump; simpl. f_equal. lia. Qed.

(** ** Closing connections *)

Lemma conn_Close_valid (r : ConnRef) (w : World) (c : ConnObj) :
  conns w !! r = Some c ->
  conn_Close r w = Ok (closeScript c (closeCalls c))
                      (set_conns (fun cs => <[r := bump 1 c]> cs) w).
Proof. intros E. unfold conn_Close. now rewrite E. Qed.

Lemma closes_refl (w : World) : closes [] w w.
Proof.
  repeat split; try reflexivity.
  - exists []. now rewrite app_nil_r.
  - intros r. simpl. destruct (conns w !! r) as [c|]; simpl; [|reflexivity].
    now rewrite bump_0.
Qed.

Lemma closes_trans (rs1 rs2 : list ConnRef) (w0 w1 w2 : World) :
  closes rs1 w0 w1 -> closes rs2 w1 w2 -> closes (rs1 ++ rs2) w0 w2.
Proof.
  intros (C1 & P1 & E1 & B1 & [x1 L1] & H1) (C2 & P2 & E2 & B2 & [x2 L2] & H2).
  repeat split; try congruence.
  - exists (x1 ++ x2). rewrite L2, L1. now rewrite app_assoc.
  - intros r. rewrite H2, H1, count_occ_app.
    destruct (conns w0 !! r) as [c|]; simpl; [|reflexivity].
    rewrite bump_bump. now rewrite Nat.add_comm.
Qed.

Lemma closes_one (r : ConnRef) (w : World) (c : ConnObj) :
  conns w !! r = Some c ->
  closes [r] w (set_conns (fun cs => <[r := bump 1 c]> cs) w).
Proof.
  intros E. repeat split; try reflexivity.
  - exists []. simpl. now rewrite app_nil_r.
  - intros r'. cbn [conns set_conns count_occ].
    destruct (Nat.eq_dec r r') as [->|N].
    + rewrite list_lookup_insert_eq by (now apply lookup_lt_Some with c).
      now rewrite E.
    + rewrite list_lookup_insert_ne by assumption.
      destruct (conns w !! r') as [c'|]; simpl; [|reflexivity].
      now rewrite bump_0.
Qed.

Lemma closes_log (rs : list ConnRef) (w w' : World) (l : LogRecord) :
  closes rs w w' -> closes rs w (set_logs (fun ls => ls ++ [l]) w').
Proof.
  intros (C & P & E & B & [x L] & H). repeat split; try assumption.
  exists (x ++ [l]). cbn. rewrite L. now rewrite app_assoc.
Qed.

(** One leg of [Close]: a nil connection is skipped, any other is
    closed once and its error, if any, logged. *)
Lemma close_leg (lg : Logger) (msg : string) (c : Conn) (w : World) :
  (forall r, c = Some r -> r < length (conns w)) ->
  exists w',
    match c with
    | Some r =>
        err ← conn_Close r;
        match err with
        | Some e => mtglib.logger_InfoError (Some lg) msg e
        | None => mret tt
        end
    | None => mret tt
    end w = Ok tt w' /\ closes (option_list c) w w'.
Proof.
  intros V. destruct c as [r|]; simpl.
  - destruct (lookup_lt_is_Some_2 (conns w) r (V r eq_refl)) as [o E].
    rewrite (bind_Ok _ _ _ _ _ (conn_Close_valid r w o E)).
    destruct (closeScript o (closeCalls o)) as [e|].
    + eexists. split; [reflexivity|]. apply closes_log. now apply closes_one.
    + eexists. split; [reflexivity|]. now apply closes_one.
  - exists w. split; [reflexivity|]. apply closes_refl.
Qed.

Lemma closes_length (rs : list ConnRef) (w w' : World) :
  closes rs w w' -> length (conns w') = length (conns w).
Proof.
  intros (_ & _ & _ & _ & _ & H).
  destruct (Nat.lt_trichotomy (length (conns w')) (length (conns w))) as [L|[L|L]];
    [exfalso|assumption|exfalso].
  - destruct (lookup_lt_is_Some_2 _ _ L) as [c E].
    specialize (H (length (conns w'))). rewrite E in H. simpl in H.
    rewrite lookup_ge_None_2 in H by lia. discriminate.
  - destruct (lookup_lt_is_Some_2 _ _ L) as [c E].
    specialize (H (length (conns w))). rewrite E in H.
    rewrite lookup_ge_None_2 in H by lia. discriminate.
Qed.

Lemma closes_calls (rs : list ConnRef) (w w' : World) (r : ConnRef) :
  closes rs w w' -> r < length (conns w) ->
  closeCallsOf w' r = count_occ Nat.eq_dec rs r + closeCallsOf w r.
Proof.
  intros (_ & _ & _ & _ & _ & H) L. unfold closeCallsOf. rewrite H.
  destruct (lookup_lt_is_Some_2 _ _ L) as [c E]. now rewrite E.
Qed.

Lemma closes_untouched (rs : list ConnRef) (w w' : World) (r : ConnRef) :
  closes rs w w' -> ~ In r rs -> conns w' !! r = conns w !! r.
Proof.
  intros (_ & _ & _ & _ & _ & H) N. rewrite H.
  rewrite (proj1 (count_occ_not_In Nat.eq_dec rs r) N).
  destruct (conns w !! r) as [c|]; simpl; [|reflexivity]. now rewrite bump_0.
Qed.

(** What one call of [Close] does on a well-formed stream context. *)
Lemma Close_once (s : mtglib.streamContext) (w : World) :
  well_formed w s ->
  exists w',
    mtglib.Close s w = Ok tt w' /\
    closes (conn_refs s) (set_ctxs (cancelled (mtglib.ctxCancel s)) w) w'.
Proof.
  intros ([lg L] & _ & V). unfold mtglib.Close. rewrite L.
  set (w0 := set_ctxs (cancelled (mtglib.ctxCancel s)) w).
  assert (E0 : cancel (mtglib.ctxCancel s) w = Ok tt w0) by reflexivity.
  rewrite (bind_Ok _ _ _ _ _ E0).
  destruct (close_leg lg "error closing clientConn" (mtglib.clientConn s) w0)
    as (w1 & E1 & C1).
  { intros r Er. apply V. unfold conn_refs. rewrite Er. simpl. now left. }
  rewrite (bind_Ok _ _ _ _ _ E1).
  destruct (close_leg lg "error closing telegramConn" (mtglib.telegramConn s) w1)
    as (w2 & E2 & C2).
  { intros r Er. rewrite (closes_length _ _ _ C1). apply V. unfold conn_refs.
    rewrite Er. apply in_or_app. right. simpl. now left. }
  exists w2. split; [exact E2|]. unfold conn_refs. now apply closes_trans with w1.
Qed.

Lemma well_formed_closes (rs : list ConnRef) (f : CancelFunc) (w w' : World)
    (s : mtglib.streamContext) :
  well_formed w s -> closes rs (set_ctxs (cancelled f) w) w' -> well_formed w' s.
Proof.
  intros (L & C & V) H. pose proof (closes_length _ _ _ H) as Len.
  destruct H as (Hc & _). repeat split; try assumption.
  - rewrite Hc. cbn. unfold cancelled. destruct (ctxs w !! f); [|assumption].
    now rewrite length_insert.
  - intros r I. rewrite Len. cbn. now apply V.
Qed.

Lemma cancelled_done (f : CancelFunc) (cs : list CtxObj) :
  f < length cs -> ctxDone <$> cancelled f cs !! f = Some true.
Proof.
  intros L. unfold cancelled. destruct (lookup_lt_is_Some_2 _ _ L) as [o E].
  rewrite E. now rewrite list_lookup_insert_eq.
Qed.

Lemma cancelled_idem (f : CancelFunc) (cs : list CtxObj) :
  cancelled f (cancelled f cs) = cancelled f cs.
Proof.
  unfold cancelled at 2. destruct (cs !! f) as [o|] eqn:E.
  - unfold cancelled. rewrite list_lookup_insert_eq by (now apply lookup_lt_Some with o).
    simpl. now rewrite E, list_insert_insert_eq.
  - unfold cancelled. now rewrite E.
Qed.

(** ** Close on a stream context *)

(** C1, as the spec has it, fails.  On a stream context with two TCP
    legs the second [Close] is not a no-op: it calls [Close] on each
    connection a second time (two calls counted on either leg) and logs
    the two errors these calls report. *)
Lemma Close_twice_counterexample :
  ~ Close_twice_is_noop demo.stream demo.world /\
  mtglib.Close demo.stream demo.world = Ok tt demo.closed_once /\
  mtglib.Close demo.stream demo.closed_once = Ok tt demo.closed_twice /\
  closeCallsOf demo.closed_once 0 = 1 /\ closeCallsOf demo.closed_twice 0 = 2 /\
  closeCallsOf demo.closed_once 1 = 1 /\ closeCallsOf demo.closed_twice 1 = 2 /\
  length (logs demo.closed_once) = 0 /\ length (logs demo.closed_twice) = 2.
Proof.
  assert (E1 : mtglib.Close demo.stream demo.world = Ok tt demo.closed_once)
    by reflexivity.
  assert (E2 : mtglib.Close demo.stream demo.closed_once = Ok tt demo.closed_twice)
    by reflexivity.
  repeat split; try assumption; try reflexivity.
  intros H. specialize (H _ E1). rewrite E2 in H.
  assert (L : length (logs demo.closed_twice) = length (logs demo.closed_once))
    by congruence.
  discriminate L.
Qed.

(** C1, amended: the first [Close] cancels the handle and calls [Close]
    once on every connection the context holds; [Close] has no guard
    against a second call, which leaves the contexts as they are and
    calls [Close] on every connection once more. *)
Theorem Close_twice_closes_again (s : mtglib.streamContext) (w : World) :
  well_formed w s ->
  exists w1 w2,
    mtglib.Close s w = Ok tt w1 /\
    mtglib.Close s w1 = Ok tt w2 /\
    ctxDone <$> ctxs w1 !! mtglib.ctxCancel s = Some true /\
    ctxs w2 = ctxs w1 /\
    (forall r, r < length (conns w) ->
       closeCallsOf w1 r = count_occ Nat.eq_dec (conn_refs s) r + closeCallsOf w r) /\
    (forall r, r < length (conns w) ->
       closeCallsOf w2 r = count_occ Nat.eq_dec (conn_refs s) r + closeCallsOf w1 r).
Proof.
  intros WF.
  destruct (Close_once s w WF) as (w1 & E1 & C1).
  pose proof (well_formed_closes _ _ _ _ _ WF C1) as WF1.
  destruct (Close_once s w1 WF1) as (w2 & E2 & C2).
  exists w1, w2. repeat split; try assumption.
  - destruct C1 as (-> & _). cbn. apply cancelled_done. apply WF.
  - destruct C2 as (-> & _). cbn. destruct C1 as (-> & _). cbn.
    apply cancelled_idem.
  - intros r L. now apply (closes_calls _ _ _ _ C1).
  - intros r L. apply (closes_calls _ _ _ _ C2). cbn.
    now rewrite (closes_length _ _ _ C1).
Qed.

Lemma Close_twice_closes_again_witness :
  well_formed demo.world demo.stream /\
  exists w1 w2,
    mtglib.Close demo.stream demo.world = Ok tt w1 /\
    mtglib.Close demo.stream w1 = Ok tt w2 /\
    ctxDone <$> ctxs w1 !! 0 = Some true /\
    ctxs w2 = ctxs w1 /\
    (forall r, r < 3 ->
       closeCallsOf w1 r
       = count_occ Nat.eq_dec (conn_refs demo.stream) r + closeCallsOf demo.world r) /\
    (forall r, r < 3 ->
       closeCallsOf w2 r
       = count_occ Nat.eq_dec (conn_refs demo.stream) r + closeCallsOf w1 r).
Proof.
  assert (WF : well_formed demo.world demo.stream).
  { repeat split.
    - eexists; reflexivity.
    - simpl; lia.
    - intros r [<-|[<-|[]]]; simpl; lia. }
  split; [exact WF|].
  exact (Close_twice_closes_again demo.stream demo.world WF).
Defined.



(** ** base64 *)

(** The vectors of RFC 4648, without padding, and one that needs the
    two characters of the URL alphabet. *)
Example Encode_foobar :
  base64.EncodeToString [x66; x6f; x6f; x62; x61; x72] = "Zm9vYmFy".
Proof. reflexivity. Qed.

Example Encode_fooba :
  base64.EncodeToString [x66; x6f; x6f; x62; x61] = "Zm9vYmE".
Proof. reflexivity. Qed.

Example Encode_foob :
  base64.EncodeToString [x66; x6f; x6f; x62] = "Zm9vYg".
Proof. reflexivity. Qed.

Example Encode_url_alphabet :
  base64.EncodeToString [xfb; xff; xbf] = "-_-_".
Proof. reflexivity. Qed.

(** Induction on a byte string in the steps of the encoder. *)
Lemma list_ind3 {A} (P : list A -> Prop) :
  P [] -> (forall a, P [a]) -> (forall a b, P [a; b]) ->
  (forall a b c l, P l -> P (a :: b :: c :: l)) ->
  forall l, P l.
Proof.
  intros H0 H1 H2 H3.
  assert (K : forall l, P l /\ (forall a, P (a :: l)) /\ (forall a b, P (a :: b :: l))).
  { induction l as [|c l (IH0 & IH1 & IH2)].
    - repeat split; auto.
    - repeat split; auto. }
  intros l. apply K.
Qed.

Lemma Encode_length (src : list byte) :
  length (base64.Encode src) = (4 * length src + 2) / 3.
Proof.
  induction src as [| a | a b | a b c l IH] using list_ind3; try reflexivity.
  cbn [base64.Encode length]. rewrite IH.
  replace (4 * S (S (S (length l))) + 2) with (4 * length l + 2 + 4 * 3) by lia.
  rewrite Nat.div_add by lia. lia.
Qed.

Lemma string_of_list_ascii_length (l : list ascii) :
  String.length (string_of_list_ascii l) = length l.
Proof. induction l as [|c l IH]; simpl; [reflexivity|]. now rewrite IH. Qed.

Lemma EncodeToString_length (src : list byte) :
  String.length (base64.EncodeToString src) = (4 * length src + 2) / 3.
Proof.
  unfold base64.EncodeToString.
  now rewrite string_of_list_ascii_length, Encode_length.
Qed.

Lemma get_In (s : string) (n : nat) (c : ascii) :
  String.get n s = Some c -> In c (list_ascii_of_string s).
Proof.
  revert n. induction s as [|a s IH]; intros n; simpl; [discriminate|].
  destruct n as [|n].
  - intros [= ->]. now left.
  - intros E. right. now apply IH with n.
Qed.

Lemma encode_alphabet (v : N) :
  In (base64.encode v) (list_ascii_of_string base64.encodeURL).
Proof.
  unfold base64.encode.
  destruct (String.get (N.to_nat v) base64.encodeURL) as [c|] eqn:E.
  - now apply get_In with (N.to_nat v).
  - simpl. now left.
Qed.

Lemma Encode_alphabet (src : list byte) :
  Forall (fun c => In c (list_ascii_of_string base64.encodeURL)) (base64.Encode src).
Proof.
  induction src as [| a | a b | a b c l IH] using list_ind3;
    cbn [base64.Encode];
    repeat (constructor; [apply encode_alphabet|]);
    first [assumption | constructor].
Qed.

(** ** newStreamContext *)

Section NewStreamContextFacts.

Variable IP_String : IP -> string.

(** With a short random pool [crand.Read] fails and [newStreamContext]
    panics with its error. *)
Lemma newStreamContext_rand_failure (ctx0 : Context) (logger0 : option Logger)
    (conn : Conn) (w : World) :
  length (randPool w) < mtglib.ConnectionIDBytesLength ->
  mtglib.newStreamContext IP_String ctx0 logger0 conn w
  = Panic (PanicError (randErr w)) (set_randPool (fun _ => []) w).
Proof.
  intros L. unfold mtglib.newStreamContext, mbind, M_bind, crand_Read.
  destruct (decide (mtglib.ConnectionIDBytesLength <= length (randPool w))) as [G|_];
    [lia|reflexivity].
Qed.

(** With enough random bytes and a logger, [newStreamContext] does what
    [ClientIP] does on the peer address. *)
Lemma newStreamContext_run (ctx0 : Context) (lg : Logger) (conn : Conn) (w : World) :
  mtglib.ConnectionIDBytesLength <= length (randPool w) ->
  mtglib.newStreamContext IP_String ctx0 (Some lg) conn w
  = match conn with
    | None => Panic PanicNilDereference (drawn ctx0 w)
    | Some r =>
        match conns w !! r with
        | None => Panic PanicNilDereference (drawn ctx0 w)
        | Some o =>
            match remoteAddr o with
            | AddrTCP (Some t) =>
                Ok {| mtglib.ctx := CancelCtx (length (ctxs w));
                      mtglib.ctxCancel := length (ctxs w);
                      mtglib.clientConn := conn;
                      mtglib.telegramConn := None;
                      mtglib.streamID :=
                        base64.EncodeToString
                          (take mtglib.ConnectionIDBytesLength (randPool w));
                      mtglib.dc := 0;
                      mtglib.logger :=
                        Some (BindStr "client-ip" (IP_String (tcp_IP t))
                               (BindStr "stream-id"
                                  (base64.EncodeToString
                                     (take mtglib.ConnectionIDBytesLength (randPool w)))
                                  lg)) |}
                   (drawn ctx0 w)
            | AddrTCP None => Panic PanicNilDereference (drawn ctx0 w)
            | _ => Panic PanicTypeAssertion (drawn ctx0 w)
            end
        end
    end.
Proof.
  intros L.
  unfold mtglib.newStreamContext, mtglib.ClientIP, mbind, M_bind, crand_Read,
    WithCancel, conn_RemoteAddr, mret, M_ret, panic.
  destruct (decide (mtglib.ConnectionIDBytesLength <= length (randPool w))) as [_|G];
    [|lia].
  cbn -[take drop base64.EncodeToString mtglib.ConnectionIDBytesLength].
  destruct conn as [r|]; [|reflexivity].
  cbn -[take drop base64.EncodeToString mtglib.ConnectionIDBytesLength].
  destruct (conns w !! r) as [o|]; [|reflexivity].
  destruct (remoteAddr o) as [|[t|]| |]; reflexivity.
Qed.

End NewStreamContextFacts.

Section NewStreamContextClaims.

Variable IP_String : IP -> string.

(** C3: the stream id of a context that [newStreamContext] returns is
    the unpadded base64url text of the [ConnectionIDBytesLength] = 16
    bytes that the random source delivered to this call: 22 characters
    of the URL alphabet.  The call consumes exactly these bytes, and
    the context starts without an upstream leg. *)
Theorem newStreamContext_streamID (ctx0 : Context) (logger0 : option Logger)
    (conn : Conn) (w w' : World) (s : mtglib.streamContext) :
  mtglib.newStreamContext IP_String ctx0 logger0 conn w = Ok s w' ->
  mtglib.ConnectionIDBytesLength = 16 /\
  length (take mtglib.ConnectionIDBytesLength (randPool w)) = 16 /\
  mtglib.streamID s
  = base64.EncodeToString (take mtglib.ConnectionIDBytesLength (randPool w)) /\
  randPool w' = drop mtglib.ConnectionIDBytesLength (randPool w) /\
  String.length (mtglib.streamID s) = 22 /\
  Forall (fun c => In c (list_ascii_of_string base64.encodeURL))
         (list_ascii_of_string (mtglib.streamID s)) /\
  mtglib.clientConn s = conn /\ mtglib.telegramConn s = None.
Proof.
  intros E.
  destruct (Nat.le_gt_cases mtglib.ConnectionIDBytesLength (length (randPool w)))
    as [L|L].
  2:{ rewrite newStreamContext_rand_failure in E by assumption. discriminate. }
  destruct logger0 as [lg|].
  2:{ unfold mtglib.newStreamContext, mbind, M_bind, crand_Read in E.
      destruct (decide (mtglib.ConnectionIDBytesLength <= length (randPool w)));
        discriminate. }
  rewrite newStreamContext_run in E by assumption.
  assert (Len : length (take mtglib.ConnectionIDBytesLength (randPool w)) = 16).
  { rewrite length_take. unfold mtglib.ConnectionIDBytesLength in *. lia. }
  destruct conn as [r|]; [|discriminate].
  destruct (conns w !! r) as [o|]; [|discriminate].
  destruct (remoteAddr o) as [|[t|]| |]; try discriminate.
  injection E as <- <-.
  cbn [mtglib.streamID mtglib.clientConn mtglib.telegramConn].
  repeat split; try assumption; try reflexivity.
  - now rewrite EncodeToString_length, Len.
  - unfold base64.EncodeToString. rewrite list_ascii_of_string_of_list_ascii.
    apply Encode_alphabet.
Qed.

(** C9: [newStreamContext] has no error result and returns only when
    the random source delivers the id, there is a logger and the client
    connection has a TCP peer address.  When the random source fails it
    panics with that error; when the peer address is of another type
    than [*net.TCPAddr] the type assertion of [ClientIP] panics. *)
Theorem newStreamContext_partial (ctx0 : Context) (logger0 : option Logger)
    (conn : Conn) (w : World) :
  (returned (mtglib.newStreamContext IP_String ctx0 logger0 conn w) = true <->
   mtglib.ConnectionIDBytesLength <= length (randPool w) /\
   is_Some logger0 /\ is_Some (tcp_peer w conn)) /\
  (length (randPool w) < mtglib.ConnectionIDBytesLength ->
   exists w', mtglib.newStreamContext IP_String ctx0 logger0 conn w
              = Panic (PanicError (randErr w)) w') /\
  (mtglib.ConnectionIDBytesLength <= length (randPool w) ->
   is_Some logger0 ->
   forall r o, conn = Some r -> conns w !! r = Some o ->
               (forall t, remoteAddr o <> AddrTCP t) ->
   exists w', mtglib.newStreamContext IP_String ctx0 logger0 conn w
              = Panic PanicTypeAssertion w').
Proof.
  split; [|split].
  - destruct (Nat.le_gt_cases mtglib.ConnectionIDBytesLength (length (randPool w)))
      as [L|L].
    2:{ rewrite newStreamContext_rand_failure by assumption. simpl.
        split; [discriminate|]. intros (G & _). lia. }
    destruct logger0 as [lg|].
    2:{ unfold mtglib.newStreamContext, mbind, M_bind, crand_Read.
        destruct (decide (mtglib.ConnectionIDBytesLength <= length (randPool w)));
          simpl; (split; [discriminate|]); intros (_ & [x X] & _); discriminate. }
    rewrite newStreamContext_run by assumption. unfold tcp_peer.
    destruct conn as [r|]; simpl.
    2:{ split; [discriminate|]. intros (_ & _ & [x X]). discriminate. }
    destruct (conns w !! r) as [o|]; simpl.
    2:{ split; [discriminate|]. intros (_ & _ & [x X]). discriminate. }
    destruct (remoteAddr o) as [|[t|]| |]; simpl;
      try (split; [discriminate|]; intros (_ & _ & [x X]); discriminate).
    split; [|reflexivity]. intros _. repeat split; eauto.
  - intros L. eexists. now apply newStreamContext_rand_failure.
  - intros L [lg ->] r o -> Er NT.
    rewrite newStreamContext_run by assumption. rewrite Er.
    destruct (remoteAddr o) as [|a| |]; try (eexists; reflexivity).
    now destruct (NT a).
Qed.

End NewStreamContextClaims.

Lemma newStreamContext_streamID_witness :
  mtglib.newStreamContext demo.IP_String Background (Some demo.root_logger) (Some 0)
    demo.world
  = Ok {| mtglib.ctx := CancelCtx 1; mtglib.ctxCancel := 1;
          mtglib.clientConn := Some 0; mtglib.telegramConn := None;
          mtglib.streamID := "AAECAwQFBgcICQoLDA0ODw"; mtglib.dc := 0;
          mtglib.logger :=
            Some {| logName := [];
                    logFields := [("stream-id", "AAECAwQFBgcICQoLDA0ODw");
                                  ("client-ip", "10.0.0.10")] |} |}
       (drawn Background demo.world) /\
  String.length "AAECAwQFBgcICQoLDA0ODw" = 22.
Proof.
  assert (E : mtglib.newStreamContext demo.IP_String Background
                (Some demo.root_logger) (Some 0) demo.world
              = Ok {| mtglib.ctx := CancelCtx 1; mtglib.ctxCancel := 1;
                      mtglib.clientConn := Some 0; mtglib.telegramConn := None;
                      mtglib.streamID := "AAECAwQFBgcICQoLDA0ODw"; mtglib.dc := 0;
                      mtglib.logger :=
                        Some {| logName := [];
                                logFields := [("stream-id", "AAECAwQFBgcICQoLDA0ODw");
                                              ("client-ip", "10.0.0.10")] |} |}
                   (drawn Background demo.world)) by reflexivity.
  split; [exact E|].
  exact (proj1 (proj2 (proj2 (proj2 (proj2
    (newStreamContext_streamID demo.IP_String _ _ _ _ _ _ E)))))).
Defined.

Lemma newStreamContext_partial_witness :
  (exists w', mtglib.newStreamContext demo.IP_String Background
                (Some demo.root_logger) (Some 0) (set_randPool (take 15) demo.world)
              = Panic (PanicError (errorString "unexpected EOF")) w') /\
  (exists w', mtglib.newStreamContext demo.IP_String Background
                (Some demo.root_logger) (Some 2) demo.world
              = Panic PanicTypeAssertion w').
Proof.
  split.
  - apply (proj1 (proj2 (newStreamContext_partial demo.IP_String Background
                          (Some demo.root_logger) (Some 0)
                          (set_randPool (take 15) demo.world)))).
    simpl. unfold mtglib.ConnectionIDBytesLength. lia.
  - apply (proj2 (proj2 (newStreamContext_partial demo.IP_String Background
                          (Some demo.root_logger) (Some 2) demo.world))
             ltac:(simpl; unfold mtglib.ConnectionIDBytesLength; lia)
             ltac:(eexists; reflexivity)
             2 demo.unix_client eq_refl eq_refl).
    intros t. discriminate.
Defined.

(** ** Listener.Accept *)

Lemma lookup_snoc_here {A} (l : list A) (x : A) : (l ++ [x]) !! length l = Some x.
Proof. now apply list_lookup_middle. Qed.

Lemma insert_snoc_here {A} (l : list A) (x y : A) :
  <[length l := y]> (l ++ [x]) = l ++ [y].
Proof.
  replace (length l) with (length l + 0) by lia. now rewrite insert_app_r.
Qed.

(** [Accept] on a backlog whose next connection cannot be tuned. *)
Lemma Accept_untuned (l : utils.Listener) (w : World) (c : ConnObj)
    (rest : list AcceptOutcome) (e : error) :
  backlogs w !! utils.base l = Some (Accepted c :: rest) ->
  sockoptResult c = Some e ->
  utils.Accept l w
  = let w' := set_conns (fun cs => cs ++ [bump 1 c])
                (set_backlogs (fun bl => <[utils.base l := rest]> bl) w) in
    match closeScript c (closeCalls c) with
    | None => Ok (None, Some (wrapError "cannot set TCP options" e)) w'
    | Some e' => Panic (PanicError e') w'
    end.
Proof.
  intros B S.
  unfold utils.Accept, mbind, M_bind, utils.base_Accept. rewrite B.
  unfold utils.SetClientSocketOptions. cbn [conns set_conns set_backlogs].
  rewrite lookup_snoc_here, S.
  unfold conn_Close. cbn [conns set_conns set_backlogs].
  rewrite lookup_snoc_here.
  unfold set_conns at 1. cbn [conns ctxs randPool randErr logs backlogs set_conns
                               set_backlogs].
  rewrite insert_snoc_here.
  destruct (closeScript c (closeCalls c)); reflexivity.
Qed.

(** Whatever the backlog holds, a connection that [Accept] returns has
    its options applied and comes without an error. *)
Lemma Accept_returns_tuned (l : utils.Listener) (w w' : World) (r : nat)
    (err : option error) :
  utils.Accept l w = Ok (Some r, err) w' ->
  err = None /\ tuned <$> conns w' !! r = Some true.
Proof.
  unfold utils.Accept, mbind, M_bind, utils.base_Accept.
  destruct (backlogs w !! utils.base l) as [[|[c|e] rest]|]; try discriminate.
  unfold utils.SetClientSocketOptions. cbn [conns set_conns set_backlogs].
  rewrite lookup_snoc_here.
  destruct (sockoptResult c) as [e|] eqn:S.
  - unfold conn_Close. cbn [conns set_conns set_backlogs].
    rewrite lookup_snoc_here.
    destruct (closeScript c (closeCalls c)); discriminate.
  - unfold mret, M_ret. intros [= <- <- <-]. split; [reflexivity|].
    cbn [conns set_conns set_backlogs].
    rewrite insert_snoc_here, lookup_snoc_here. reflexivity.
Qed.

(** C10, as stated, fails: on a connection where setting the options
    fails and [Close] fails too, [Accept] does not return an error, it
    panics with the error of [Close]. *)
Lemma Accept_tuning_failure_counterexample :
  ~ Accept_errors_on_tuning_failure demo.listener0 demo.listening /\
  returned (utils.Accept demo.listener0 demo.listening) = false /\
  exists w', utils.Accept demo.listener0 demo.listening
             = Panic (PanicError (errorString "close: bad file descriptor")) w'.
Proof.
  split; [|split].
  - intros H.
    destruct (H demo.bad_descriptor [] _ eq_refl eq_refl) as (err & w' & E & _).
    discriminate E.
  - reflexivity.
  - eexists. reflexivity.
Qed.

(** C10, amended: when setting the options on the accepted connection
    fails, [Accept] calls [Close] on it exactly once and hands out no
    connection; it returns the wrapped error when [Close] succeeds and
    panics with the error of [Close] when [Close] fails. *)
Theorem Accept_tuning_failure (l : utils.Listener) (w : World) (c : ConnObj)
    (rest : list AcceptOutcome) (e : error) :
  backlogs w !! utils.base l = Some (Accepted c :: rest) ->
  sockoptResult c = Some e ->
  exists w',
    state_of (utils.Accept l w) = w' /\
    conns w' = conns w ++ [bump 1 c] /\
    closeCallsOf w' (length (conns w)) = S (closeCalls c) /\
    (closeScript c (closeCalls c) = None ->
     utils.Accept l w = Ok (None, Some (wrapError "cannot set TCP options" e)) w') /\
    (forall e', closeScript c (closeCalls c) = Some e' ->
     utils.Accept l w = Panic (PanicError e') w') /\
    (forall r err w'', utils.Accept l w <> Ok (Some r, err) w'').
Proof.
  intros B S. rewrite (Accept_untuned l w c rest e B S). cbv zeta.
  exists (set_conns (fun cs => cs ++ [bump 1 c])
            (set_backlogs (fun bl => <[utils.base l := rest]> bl) w)).
  split; [|split; [|split; [|split; [|split]]]].
  - destruct (closeScript c (closeCalls c)); reflexivity.
  - reflexivity.
  - unfold closeCallsOf. cbn [conns set_conns set_backlogs].
    now rewrite lookup_snoc_here.
  - now intros ->.
  - now intros e' ->.
  - intros r err w''. destruct (closeScript c (closeCalls c)); discriminate.
Qed.

Lemma Accept_tuning_failure_witness :
  backlogs demo.listening !! utils.base demo.listener1
  = Some (Accepted demo.untunable :: [Accepted demo.client]) /\
  sockoptResult demo.untunable
  = Some (errorString "setsockopt: protocol not available") /\
  exists w',
    state_of (utils.Accept demo.listener1 demo.listening) = w' /\
    conns w' = conns demo.listening ++ [bump 1 demo.untunable] /\
    closeCallsOf w' (length (conns demo.listening)) = S (closeCalls demo.untunable) /\
    (closeScript demo.untunable (closeCalls demo.untunable) = None ->
     utils.Accept demo.listener1 demo.listening
     = Ok (None, Some (wrapError "cannot set TCP options"
                         (errorString "setsockopt: protocol not available"))) w') /\
    (forall e', closeScript demo.untunable (closeCalls demo.untunable) = Some e' ->
     utils.Accept demo.listener1 demo.listening = Panic (PanicError e') w') /\
    (forall r err w'', utils.Accept demo.listener1 demo.listening
                       <> Ok (Some r, err) w'').
Proof.
  split; [reflexivity|]. split; [reflexivity|].
  exact (Accept_tuning_failure demo.listener1 demo.listening demo.untunable
           [Accepted demo.client] _ eq_refl eq_refl).
Defined.

(** ** The no-op anti-replay cache *)

Lemma noop_calls (xs : list (list byte)) (n : antireplay.noop) :
  calls xs n = Ok (replicate (length xs) false) n.
Proof.
  induction xs as [|x xs IH]; [reflexivity|].
  cbn [calls]. unfold mbind, M_bind.
  change (SeenBefore x n) with (Ok (S := antireplay.noop) false n).
  cbv beta iota. now rewrite IH.
Qed.

(** C2, as stated, fails on the no-op cache: presented with the same
    byte string twice, it answers false the second time. *)
Lemma noop_false_negative_counterexample :
  ~ never_false_negative antireplay.NewNoop /\
  calls [[x2a]; [x2a]] antireplay.NewNoop = Ok [false; false] antireplay.NewNoop.
Proof.
  split; [|reflexivity].
  intros H.
  specialize (H [[x2a]; [x2a]] [false; false] antireplay.NewNoop eq_refl
                0 1 [x2a] ltac:(lia) eq_refl eq_refl).
  discriminate H.
Qed.

(** C2, amended: the no-op cache never reports a replay.  Whatever the
    call sequence, every call returns and answers false, also a call
    with a byte string that was presented before. *)
Theorem noop_never_reports (xs : list (list byte)) (n : antireplay.noop) :
  exists bs,
    calls xs n = Ok bs n /\
    length bs = length xs /\
    forall (i j : nat) (x : list byte),
      i < j -> xs !! i = Some x -> xs !! j = Some x -> bs !! j = Some false.
Proof.
  exists (replicate (length xs) false). split; [apply noop_calls|].
  split; [apply length_replicate|].
  intros i j x _ _ Hj. apply lookup_replicate_2.
  now apply lookup_lt_Some with x.
Qed.

(** ** Networks that hold every address *)

Lemma masked_eq_zero_mask (n : nat) (ip : list byte) :
  net.masked_eq (replicate n x00) (replicate n x00) ip = true.
Proof.
  revert ip. induction n as [|n IH]; intros ip; [reflexivity|].
  destruct ip as [|b ip]; [reflexivity|].
  cbn [replicate net.masked_eq]. rewrite IH, andb_true_r.
  change (Byte.to_N x00) with 0%N. now rewrite !N.land_0_r.
Qed.

Lemma To4_length (ip x : IP) : net.To4 ip = Some x -> length x = 4.
Proof.
  unfold net.To4.
  destruct (decide (length ip = 4)) as [L|_]; [now intros [= <-]|].
  destruct (decide (length ip = 16)) as [L|_]; [|discriminate].
  destruct (_ && _); [|discriminate].
  intros [= <-]. rewrite length_drop. lia.
Qed.

Lemma To4_of_4 (ip : IP) : length ip = 4 -> net.To4 ip = Some ip.
Proof. intros L. unfold net.To4. now destruct (decide (length ip = 4)). Qed.

Lemma AllIPv4_Contains (ip x : IP) :
  net.To4 ip = Some x -> net.Contains cidranger.AllIPv4 ip = true.
Proof.
  intros E. unfold net.Contains.
  change (net.networkNumberAndMask cidranger.AllIPv4)
    with (Some (replicate 4 x00, replicate 4 x00)).
  rewrite E. rewrite (To4_length _ _ E). cbn [decide].
  destruct (decide (4 = length (replicate 4 x00))) as [_|N]; [|now destruct N].
  apply masked_eq_zero_mask.
Qed.

Lemma AllIPv6_Contains (ip : IP) :
  length ip = 16 -> net.To4 ip = None -> net.Contains cidranger.AllIPv6 ip = true.
Proof.
  intros L E. unfold net.Contains.
  change (net.networkNumberAndMask cidranger.AllIPv6)
    with (Some (replicate 16 x00, replicate 16 x00)).
  rewrite E, L.
  destruct (decide (16 = length (replicate 16 x00))) as [_|N]; [|now destruct N].
  apply masked_eq_zero_mask.
Qed.

(** Every IPv4 and every IPv6 address lies in 0.0.0.0/0 or in ::/0. *)
Lemma all_networks_Contain (ip : IP) :
  length ip = 4 \/ length ip = 16 ->
  existsb (fun n => net.Contains n ip) [cidranger.AllIPv4; cidranger.AllIPv6] = true.
Proof.
  intros L. cbn [existsb].
  destruct (net.To4 ip) as [x|] eqn:E.
  - now rewrite (AllIPv4_Contains ip x E).
  - destruct L as [L|L].
    + rewrite To4_of_4 in E by assumption. discriminate.
    + rewrite (AllIPv6_Contains ip L E). now rewrite orb_true_r.
Qed.

(** ** Background refreshes *)

Import ipblocklist.

Lemma update_reads (p : Proc) (r r' : nat) (fs : list File) :
  reads p r fs -> reads (update r' p) r fs.
Proof.
  intros (f & E & F). unfold update, reads.
  destruct (lists p !! r') as [f'|] eqn:E'; [|eauto].
  cbn [lists set_lists].
  destruct (decide (r' = r)) as [->|N].
  - rewrite list_lookup_insert_eq by (now apply lookup_lt_Some with f).
    eexists. split; [reflexivity|]. cbn. congruence.
  - rewrite list_lookup_insert_ne by assumption. eauto.
Qed.

Lemma update_loads (p : Proc) (r : nat) (fs : list File) :
  reads p r fs -> loaded (update r p) r fs.
Proof.
  intros (f & E & F). unfold update, loaded. rewrite E.
  cbn [lists set_lists].
  rewrite list_lookup_insert_eq by (now apply lookup_lt_Some with f).
  eexists. split; [reflexivity|]. cbn. now rewrite F.
Qed.

Lemma update_loaded (p : Proc) (r r' : nat) (fs : list File) :
  loaded p r fs -> loaded (update r' p) r fs.
Proof.
  intros (f & E & F & S).
  destruct (decide (r' = r)) as [->|N].
  - apply update_loads. now exists f.
  - unfold update, loaded.
    destruct (lists p !! r') as [f'|] eqn:E'; [|now exists f].
    cbn [lists set_lists]. rewrite list_lookup_insert_ne by assumption.
    now exists f.
Qed.

Lemma steps_loaded (p q : Proc) (rs : list nat) (r : nat) (fs : list File) :
  steps p rs q -> loaded p r fs -> loaded q r fs.
Proof.
  induction 1 as [|p r' d rs q G St IH]; [trivial|].
  intros L. apply IH. now apply update_loaded.
Qed.

(** Once a refresh of [r] is among the steps taken, [r] has loaded its
    files. *)
Lemma steps_load (p q : Proc) (rs : list nat) (r : nat) (fs : list File) :
  steps p rs q -> In r rs -> reads p r fs -> loaded q r fs.
Proof.
  induction 1 as [|p r' d rs q G St IH]; [intros []|].
  intros [->|I] R.
  - apply (steps_loaded _ _ _ _ _ St). now apply update_loads.
  - apply IH; [assumption|]. now apply update_reads.
Qed.

Lemma loaded_Contains (p : Proc) (r : nat) (fs : list File) (ip : IP) :
  loaded p r fs ->
  Contains (BlFirehol (Some r)) ip p
  = Ok (existsb (fun n => net.Contains n ip) (concat (map (file_nets p) fs))) p.
Proof.
  intros (f & E & F & S). unfold Contains. now rewrite E, S.
Qed.

(** ** The constructors of package cli *)

Section CliClaims.

Context `{cli.Externals}.

(** C4: [makeAntiReplayCache] returns the no-op cache exactly when
    [defense.anti-replay.enabled] is absent or false; when it is true it
    returns a stable Bloom filter made from the configured max-size and
    error-rate, each replaced by its default when absent; it returns
    nothing else. *)
Theorem makeAntiReplayCache_selects (conf : cli.Config) :
  let ar := cli.AntiReplay (cli.Defense conf) in
  (cli.makeAntiReplayCache conf = cli.CacheNoop antireplay.NewNoop <->
   cli.AntiReplay_Enabled ar = None \/ cli.AntiReplay_Enabled ar = Some false) /\
  (cli.AntiReplay_Enabled ar = Some true ->
   cli.makeAntiReplayCache conf
   = cli.NewStableBloomFilter
       (match cli.AntiReplay_MaxSize ar with
        | Some m => m
        | None => cli.DefaultStableBloomFilterMaxSize
        end)
       (match cli.AntiReplay_ErrorRate ar with
        | Some e => e
        | None => cli.DefaultStableBloomFilterErrorRate
        end)) /\
  ((exists n, cli.makeAntiReplayCache conf = cli.CacheNoop n) \/
   (exists f, cli.makeAntiReplayCache conf = cli.CacheStableBloomFilter f)).
Proof.
  cbv zeta. unfold cli.makeAntiReplayCache.
  destruct (cli.AntiReplay_Enabled (cli.AntiReplay (cli.Defense conf)))
    as [[|]|]; cbn [config.Get negb].
  - split; [|split].
    + split; [discriminate|]. intros [E|E]; discriminate E.
    + intros _. reflexivity.
    + right. eexists. reflexivity.
  - split; [|split].
    + split; [auto|reflexivity].
    + discriminate.
    + left. eexists. reflexivity.
  - split; [|split].
    + split; [auto|reflexivity].
    + discriminate.
    + left. eexists. reflexivity.
Qed.

(** C6: with the blocklist disabled, [makeIPBlocklist] returns the
    no-op list and no error and starts nothing; [Contains] of that list
    answers false for every address, so that a connection passes the IP
    gate exactly when the allowlist contains its address. *)
Theorem makeIPBlocklist_disabled (conf : config.ListConfig) (logger : Logger)
    (ntw : cli.Network) (updateCallback : cli.FireholUpdateCallback)
    (p : ipblocklist.Proc) :
  config.Enabled conf = None \/ config.Enabled conf = Some false ->
  cli.makeIPBlocklist conf logger ntw updateCallback p = Ok (ipblocklist.NewNoop, None) p /\
  (forall (ip : IP) (q : ipblocklist.Proc),
     ipblocklist.Contains ipblocklist.NewNoop ip q = Ok false q) /\
  (forall (allowlist : ipblocklist.IPBlocklist) (ip : IP) (q : ipblocklist.Proc),
     ipblocklist.passes allowlist ipblocklist.NewNoop ip q
     = ipblocklist.Contains allowlist ip q).
Proof.
  intros D. split; [|split].
  - unfold cli.makeIPBlocklist. now destruct D as [-> | ->].
  - reflexivity.
  - intros allowlist ip q. unfold ipblocklist.passes, mbind, M_bind.
    destruct (ipblocklist.Contains allowlist ip q) as [a q'|]; [|reflexivity].
    cbn. unfold mret, M_ret. now rewrite andb_true_r.
Qed.

(** C5: with the allowlist disabled, [makeIPAllowlist] returns a list
    over 0.0.0.0/0 and ::/0 and starts its [Run], so that a refresh of
    the list is a step the background tasks can take.  From the first
    refresh of that list on, whatever else the background tasks do,
    [Contains] answers true for every IPv4 and every IPv6 address. *)
Theorem makeIPAllowlist_disabled (conf : config.ListConfig) (logger : Logger)
    (ntw : cli.Network) (updateCallback : cli.FireholUpdateCallback)
    (p : ipblocklist.Proc) :
  config.Enabled conf = None \/ config.Enabled conf = Some false ->
  exists (r : nat) (p1 : ipblocklist.Proc),
    cli.makeIPAllowlist conf logger ntw updateCallback p
    = Ok (ipblocklist.BlFirehol (Some r), None) p1 /\
    In (ipblocklist.GoRun (ipblocklist.BlFirehol (Some r))
          (config.Get (config.UpdateEach conf) cli.DefaultFireholUpdateEach))
       (ipblocklist.goroutines p1) /\
    ipblocklist.steps p1 [r] (ipblocklist.update r p1) /\
    forall (rs : list nat) (q : ipblocklist.Proc),
      ipblocklist.steps p1 rs q -> In r rs ->
      forall a : IP, length a = 4 \/ length a = 16 ->
        ipblocklist.Contains (ipblocklist.BlFirehol (Some r)) a q = Ok true q.
Proof.
  intros D.
  exists (length (ipblocklist.lists p)).
  eexists. split; [|split; [|split]].
  - unfold cli.makeIPAllowlist. destruct D as [-> | ->]; reflexivity.
  - cbn. apply in_or_app. right. now left.
  - eapply ipblocklist.steps_update; [|apply ipblocklist.steps_done].
    cbn. apply in_or_app. right. left. reflexivity.
  - intros rs q St I a La.
    assert (R : reads
                  (ipblocklist.set_goroutines
                     (fun gs => gs ++
                        [ipblocklist.GoRun
                           (ipblocklist.BlFirehol (Some (length (ipblocklist.lists p))))
                           (config.Get (config.UpdateEach conf)
                              cli.DefaultFireholUpdateEach)])
                     (ipblocklist.set_lists
                        (fun fs => fs ++
                           [{| ipblocklist.fhLogger := Named "ipblocklist" logger;
                               ipblocklist.fhConcurrency := 1;
                               ipblocklist.fhFiles :=
                                 [ipblocklist.Mem [cidranger.AllIPv4; cidranger.AllIPv6]];
                               ipblocklist.fhSnapshot := [] |}]) p))
                  (length (ipblocklist.lists p))
                  [ipblocklist.Mem [cidranger.AllIPv4; cidranger.AllIPv6]]).
    { eexists. split; [cbn; apply lookup_snoc_here|reflexivity]. }
    rewrite (loaded_Contains _ _ _ a (steps_load _ _ _ _ _ St I R)).
    cbn [map concat ipblocklist.file_nets app].
    now rewrite (all_networks_Contain a La).
Qed.

End CliClaims.

Lemma makeIPBlocklist_disabled_witness :
  (config.Enabled demo.disabled_list = None \/
   config.Enabled demo.disabled_list = Some false) /\
  cli.makeIPBlocklist (H := demo.externals) demo.disabled_list demo.root_logger tt tt
    demo.proc
  = Ok (ipblocklist.NewNoop, None) demo.proc /\
  (forall (ip : IP) (q : ipblocklist.Proc),
     ipblocklist.Contains ipblocklist.NewNoop ip q = Ok false q) /\
  (forall (allowlist : ipblocklist.IPBlocklist) (ip : IP) (q : ipblocklist.Proc),
     ipblocklist.passes allowlist ipblocklist.NewNoop ip q
     = ipblocklist.Contains allowlist ip q).
Proof.
  split; [left; reflexivity|].
  exact (makeIPBlocklist_disabled (H := demo.externals) demo.disabled_list
           demo.root_logger tt tt demo.proc (or_introl eq_refl)).
Defined.

Lemma makeIPAllowlist_disabled_witness :
  (config.Enabled demo.disabled_list = None \/
   config.Enabled demo.disabled_list = Some false) /\
  exists (r : nat) (p1 : ipblocklist.Proc),
    cli.makeIPAllowlist (H := demo.externals) demo.disabled_list demo.root_logger tt tt
      demo.proc
    = Ok (ipblocklist.BlFirehol (Some r), None) p1 /\
    In (ipblocklist.GoRun (ipblocklist.BlFirehol (Some r)) 21600000000000%Z)
       (ipblocklist.goroutines p1) /\
    ipblocklist.steps p1 [r] (ipblocklist.update r p1) /\
    forall (rs : list nat) (q : ipblocklist.Proc),
      ipblocklist.steps p1 rs q -> In r rs ->
      forall a : IP, length a = 4 \/ length a = 16 ->
        ipblocklist.Contains (ipblocklist.BlFirehol (Some r)) a q = Ok true q.
Proof.
  split; [left; reflexivity|].
  exact (makeIPAllowlist_disabled (H := demo.externals) demo.disabled_list
           demo.root_logger tt tt demo.proc (or_introl eq_refl)).
Defined.

(** The disabled allowlist on the address of the test, 10.0.0.10:
    nothing is loaded before the first refresh, everything after it. *)
Example allowlist_before_and_after_refresh :
  let p1 := state_of (cli.makeIPAllowlist (H := demo.externals) demo.disabled_list
                        demo.root_logger tt tt demo.proc) in
  ipblocklist.Contains (ipblocklist.BlFirehol (Some 0)) [x0a; x00; x00; x0a] p1
  = Ok false p1 /\
  ipblocklist.Contains (ipblocklist.BlFirehol (Some 0)) [x0a; x00; x00; x0a]
    (ipblocklist.update 0 p1)
  = Ok true (ipblocklist.update 0 p1).
Proof. split; reflexivity. Qed.

(** * More of the code *)

(** ** The life of a stream context *)

Section StreamContextLife.

Variable IP_String : IP -> string.

(** What a successful [newStreamContext] tells about its arguments and
    its results. *)
Lemma newStreamContext_Ok_inv (ctx0 : Context) (logger0 : option Logger)
    (conn : Conn) (w w1 : World) (s : mtglib.streamContext) :
  mtglib.newStreamContext IP_String ctx0 logger0 conn w = Ok s w1 ->
  exists lg r o t,
    logger0 = Some lg /\ conn = Some r /\ conns w !! r = Some o /\
    remoteAddr o = AddrTCP (Some t) /\
    mtglib.ConnectionIDBytesLength <= length (randPool w) /\
    w1 = drawn ctx0 w /\
    s = {| mtglib.ctx := CancelCtx (length (ctxs w));
           mtglib.ctxCancel := length (ctxs w);
           mtglib.clientConn := Some r;
           mtglib.telegramConn := None;
           mtglib.streamID :=
             base64.EncodeToString (take mtglib.ConnectionIDBytesLength (randPool w));
           mtglib.dc := 0;
           mtglib.logger :=
             Some (BindStr "client-ip" (IP_String (tcp_IP t))
                    (BindStr "stream-id"
                       (base64.EncodeToString
                          (take mtglib.ConnectionIDBytesLength (randPool w))) lg)) |}.
Proof.
  intros E.
  destruct (Nat.le_gt_cases mtglib.ConnectionIDBytesLength (length (randPool w)))
    as [L|L].
  2:{ rewrite newStreamContext_rand_failure in E by assumption. discriminate. }
  destruct logger0 as [lg|].
  2:{ unfold mtglib.newStreamContext, mbind, M_bind, crand_Read in E.
      destruct (decide (mtglib.ConnectionIDBytesLength <= length (randPool w)));
        discriminate. }
  rewrite newStreamContext_run in E by assumption.
  destruct conn as [r|]; [|discriminate].
  destruct (conns w !! r) as [o|] eqn:Er; [|discriminate].
  destruct (remoteAddr o) as [|[t|]| |] eqn:Ea; try discriminate.
  injection E as <- <-.
  exists lg, r, o, t. repeat split; assumption.
Qed.

Lemma drawn_conns (ctx0 : Context) (w : World) : conns (drawn ctx0 w) = conns w.
Proof. reflexivity. Qed.

Lemma drawn_ctxs (ctx0 : Context) (w : World) :
  ctxs (drawn ctx0 w)
  = ctxs w ++ [{| ctxParent := ctx0; ctxDone := ctx_done w ctx0 |}].
Proof. reflexivity. Qed.

(** A context fresh from [newStreamContext] is well formed. *)
Lemma newStreamContext_well_formed (ctx0 : Context) (logger0 : option Logger)
    (conn : Conn) (w w1 : World) (s : mtglib.streamContext) :
  mtglib.newStreamContext IP_String ctx0 logger0 conn w = Ok s w1 ->
  well_formed w1 s.
Proof.
  intros E.
  destruct (newStreamContext_Ok_inv _ _ _ _ _ _ E)
    as (lg & r & o & t & -> & -> & Er & Ea & L & -> & ->).
  repeat split.
  - eexists. reflexivity.
  - cbn [mtglib.ctxCancel]. rewrite drawn_ctxs, length_app. simpl. lia.
  - intros r' [<-|[]]. rewrite drawn_conns. now apply lookup_lt_Some with o.
Qed.

End StreamContextLife.

(** ** Contexts *)

Lemma ctx_Err_Background (fuel : nat) (w : World) : ctx_Err fuel w Background = None.
Proof. now destruct fuel. Qed.

Lemma ctx_Err_S (n : nat) (w : World) (r : nat) :
  ctx_Err (S n) w (CancelCtx r)
  = match ctxs w !! r with
    | None => None
    | Some o => if ctxDone o then Some Canceled else ctx_Err n w (ctxParent o)
    end.
Proof. reflexivity. Qed.

(** With enough fuel to reach the root, more fuel changes nothing. *)
Lemma ctx_Err_fuel (w : World) :
  ctxs_wf (ctxs w) ->
  forall f1 f2 r, r < f1 -> r < f2 ->
    ctx_Err f1 w (CancelCtx r) = ctx_Err f2 w (CancelCtx r).
Proof.
  intros WF. induction f1 as [|f1 IH]; intros f2 r L1 L2; [lia|].
  destruct f2 as [|f2]; [lia|]. cbn [ctx_Err].
  destruct (ctxs w !! r) as [o|] eqn:E; [|reflexivity].
  destruct (ctxDone o); [reflexivity|].
  specialize (WF r o E).
  destruct (ctxParent o) as [|p].
  - now rewrite !ctx_Err_Background.
  - apply IH; lia.
Qed.

(** [Err] of a context looks at the context and at what it was derived
    from only. *)
Lemma ctx_Err_agree (w w' : World) :
  ctxs_wf (ctxs w) ->
  forall fuel r,
    (forall i, i <= r -> ctxs w' !! i = ctxs w !! i) ->
    ctx_Err fuel w' (CancelCtx r) = ctx_Err fuel w (CancelCtx r).
Proof.
  intros WF. induction fuel as [|fuel IH]; intros r A; [reflexivity|].
  cbn [ctx_Err]. rewrite (A r (Nat.le_refl r)).
  destruct (ctxs w !! r) as [o|] eqn:E; [|reflexivity].
  destruct (ctxDone o); [reflexivity|].
  specialize (WF r o E).
  destruct (ctxParent o) as [|p].
  - now rewrite !ctx_Err_Background.
  - apply IH. intros i Li. apply A. lia.
Qed.

Lemma ctx_Err_agree_valid (w w' : World) (fuel : nat) (c : Context) :
  ctxs_wf (ctxs w) ->
  (forall i, i < length (ctxs w) -> ctxs w' !! i = ctxs w !! i) ->
  ctx_valid w c ->
  ctx_Err fuel w' c = ctx_Err fuel w c.
Proof.
  intros WF A V. destruct c as [|r].
  - now rewrite !ctx_Err_Background.
  - apply ctx_Err_agree; [assumption|]. intros i Li. apply A. simpl in V. lia.
Qed.

Lemma ctxs_wf_snoc (cs : list CtxObj) (c : Context) (d : bool) :
  ctxs_wf cs ->
  match c with Background => True | CancelCtx p => p < length cs end ->
  ctxs_wf (cs ++ [{| ctxParent := c; ctxDone := d |}]).
Proof.
  intros WF V r o E.
  destruct (Nat.lt_ge_cases r (length cs)) as [L|G].
  - rewrite lookup_app_l in E by assumption. now apply WF.
  - rewrite lookup_app_r in E by assumption.
    destruct (r - length cs) as [|k] eqn:K; [|destruct k; discriminate].
    injection E as <-. simpl. destruct c as [|p]; [trivial|]. lia.
Qed.

Lemma cancelled_lookup_ne (f i : nat) (cs : list CtxObj) :
  f <> i -> cancelled f cs !! i = cs !! i.
Proof.
  intros N. unfold cancelled. destruct (cs !! f); [|reflexivity].
  now rewrite list_lookup_insert_ne.
Qed.

Lemma cancelled_length (f : nat) (cs : list CtxObj) :
  length (cancelled f cs) = length cs.
Proof.
  unfold cancelled. destruct (cs !! f); [|reflexivity]. apply length_insert.
Qed.

(** A done context answers [Canceled]. *)
Lemma ctx_Err_done (w : World) (r : nat) :
  ctxDone <$> ctxs w !! r = Some true ->
  ctx_Err (length (ctxs w)) w (CancelCtx r) = Some Canceled.
Proof.
  intros D. destruct (ctxs w !! r) as [o|] eqn:E; [|discriminate].
  injection D as D.
  destruct (length (ctxs w)) as [|n] eqn:Len.
  - apply lookup_lt_Some in E. lia.
  - cbn [ctx_Err]. now rewrite E, D.
Qed.

Section StreamContextExtras.

Variable IP_String : IP -> string.

(** X1: a stream context from [newStreamContext] can be closed: [Close]
    returns, from then on [Err] answers [context.Canceled] and the
    [Done] channel is closed, the client connection has been closed
    exactly once and no other connection was touched. *)
Theorem newStreamContext_then_Close (ctx0 : Context) (logger0 : option Logger)
    (conn : Conn) (w w1 : World) (s : mtglib.streamContext) :
  mtglib.newStreamContext IP_String ctx0 logger0 conn w = Ok s w1 ->
  exists w2,
    mtglib.Close s w1 = Ok tt w2 /\
    mtglib.Err s w2 = Ok (Some Canceled) w2 /\
    mtglib.Done s w2 = Ok true w2 /\
    (forall r, conn = Some r -> closeCallsOf w2 r = S (closeCallsOf w r)) /\
    (forall r, conn <> Some r -> conns w2 !! r = conns w !! r).
Proof.
  intros E.
  pose proof (newStreamContext_well_formed IP_String _ _ _ _ _ _ E) as WF.
  destruct (Close_once s w1 WF) as (w2 & E2 & C).
  destruct (newStreamContext_Ok_inv IP_String _ _ _ _ _ _ E)
    as (lg & r & o & t & -> & -> & Er & Ea & L & -> & ->).
  exists w2.
  assert (D : ctx_Err (length (ctxs w2)) w2 (CancelCtx (length (ctxs w)))
              = Some Canceled).
  { apply ctx_Err_done. destruct C as (-> & _). cbn [ctxs set_ctxs mtglib.ctxCancel].
    apply cancelled_done. rewrite drawn_ctxs, length_app. simpl. lia. }
  split; [exact E2|]. split; [|split; [|split]].
  - unfold mtglib.Err. cbn [mtglib.ctx]. now rewrite D.
  - unfold mtglib.Done. cbn [mtglib.ctx]. now rewrite D.
  - intros r' [= <-].
    rewrite (closes_calls _ _ _ _ C) by (cbn; now apply lookup_lt_Some with o).
    unfold conn_refs. cbn. now destruct (Nat.eq_dec r r).
  - intros r' N. rewrite (closes_untouched _ _ _ _ C); [reflexivity|].
    unfold conn_refs. cbn. intros [->|[]]. now apply N.
Qed.

End StreamContextExtras.

Lemma newStreamContext_then_Close_witness :
  mtglib.newStreamContext demo.IP_String (CancelCtx 0) (Some demo.root_logger) (Some 0)
    demo2.world = Ok demo2.first demo2.after_first /\
  exists w2,
    mtglib.Close demo2.first demo2.after_first = Ok tt w2 /\
    mtglib.Err demo2.first w2 = Ok (Some Canceled) w2 /\
    mtglib.Done demo2.first w2 = Ok true w2 /\
    (forall r, Some 0 = Some r -> closeCallsOf w2 r = S (closeCallsOf demo2.world r)) /\
    (forall r, Some 0 <> Some r -> conns w2 !! r = conns demo2.world !! r).
Proof.
  assert (E : mtglib.newStreamContext demo.IP_String (CancelCtx 0)
                (Some demo.root_logger) (Some 0) demo2.world
              = Ok demo2.first demo2.after_first) by reflexivity.
  split; [exact E|].
  exact (newStreamContext_then_Close demo.IP_String _ _ _ _ _ _ E).
Defined.

Lemma ClientIP_closes (rs : list nat) (w w' : World) (s : mtglib.streamContext)
    (ip : IP) :
  closes rs w w' -> mtglib.ClientIP s w = Ok ip w -> mtglib.ClientIP s w' = Ok ip w'.
Proof.
  intros (_ & _ & _ & _ & _ & H). unfold mtglib.ClientIP.
  destruct (mtglib.clientConn s) as [r|]; [|discriminate].
  unfold mbind, M_bind, conn_RemoteAddr. rewrite H.
  destruct (conns w !! r) as [o|]; [|discriminate]. cbn.
  destruct (remoteAddr o) as [|[t|]| |]; try discriminate.
  unfold mret, M_ret. now intros [= ->].
Qed.

Section StreamContextExtras2.

Variable IP_String : IP -> string.

(** X2: a fresh stream context is done exactly when the context it was
    derived from is, and cancelling that context cancels the stream
    context: [Err] then answers [context.Canceled]. *)
Theorem newStreamContext_inherits (ctx0 : Context) (logger0 : option Logger)
    (conn : Conn) (w w1 : World) (s : mtglib.streamContext) :
  ctxs_wf (ctxs w) -> ctx_valid w ctx0 ->
  mtglib.newStreamContext IP_String ctx0 logger0 conn w = Ok s w1 ->
  mtglib.Err s w1 = Ok (ctx_Err (length (ctxs w)) w ctx0) w1 /\
  forall r0 w1', ctx0 = CancelCtx r0 -> cancel r0 w1 = Ok tt w1' ->
    mtglib.Err s w1' = Ok (Some Canceled) w1'.
Proof.
  intros WF V E.
  destruct (newStreamContext_Ok_inv IP_String _ _ _ _ _ _ E)
    as (lg & r & o & t & -> & -> & Er & Ea & L & -> & ->).
  split.
  - unfold mtglib.Err. cbn [mtglib.ctx]. f_equal.
    rewrite drawn_ctxs, length_app, Nat.add_comm. cbn [length Nat.add ctx_Err].
    rewrite drawn_ctxs, lookup_snoc_here. cbn [ctxDone ctxParent].
    destruct ctx0 as [|r0].
    + cbn. now rewrite !ctx_Err_Background.
    + simpl in V. cbn [ctx_done].
      destruct (lookup_lt_is_Some_2 _ _ V) as [o0 E0]. rewrite E0.
      destruct (ctxDone o0) eqn:D0.
      * destruct (length (ctxs w)) as [|n]; [lia|]. cbn [ctx_Err].
        now rewrite E0, D0.
      * apply ctx_Err_agree; [assumption|]. intros i Li.
        rewrite drawn_ctxs. apply lookup_app_l. lia.
  - intros r0 w1' -> [= <-]. simpl in V.
    unfold mtglib.Err. cbn [mtglib.ctx]. f_equal.
    change (ctxs (set_ctxs _ (drawn (CancelCtx r0) w)))
      with (cancelled r0 (ctxs (drawn (CancelCtx r0) w))).
    set (w1' := set_ctxs _ (drawn (CancelCtx r0) w)).
    assert (C1 : ctxs w1' = cancelled r0 (ctxs (drawn (CancelCtx r0) w)))
      by reflexivity.
    assert (V1 : r0 < length (ctxs (drawn (CancelCtx r0) w)))
      by (rewrite drawn_ctxs, length_app; simpl; lia).
    rewrite cancelled_length, drawn_ctxs, length_app, Nat.add_comm.
    cbn [length Nat.add ctx_Err].
    rewrite C1, cancelled_lookup_ne by lia.
    rewrite drawn_ctxs, lookup_snoc_here. cbn [ctxDone ctxParent].
    destruct (ctx_done w (CancelCtx r0)); [reflexivity|].
    destruct (length (ctxs w)) as [|n] eqn:Len; [lia|]. cbn [ctx_Err].
    pose proof (cancelled_done r0 _ V1) as D. rewrite <- C1 in D.
    destruct (ctxs w1' !! r0) as [o0|]; [|discriminate].
    injection D as ->. reflexivity.
Qed.

End StreamContextExtras2.

Lemma demo2_world_wf : ctxs_wf (ctxs demo2.world).
Proof.
  intros r o E. destruct r as [|r]; simpl in E.
  - injection E as <-. exact I.
  - destruct r; discriminate E.
Defined.

Lemma newStreamContext_inherits_witness :
  ctxs_wf (ctxs demo2.world) /\ ctx_valid demo2.world (CancelCtx 0) /\
  mtglib.newStreamContext demo.IP_String (CancelCtx 0) (Some demo.root_logger) (Some 0)
    demo2.world = Ok demo2.first demo2.after_first /\
  mtglib.Err demo2.first demo2.after_first
  = Ok (ctx_Err (length (ctxs demo2.world)) demo2.world (CancelCtx 0)) demo2.after_first /\
  forall r0 w1', CancelCtx 0 = CancelCtx r0 -> cancel r0 demo2.after_first = Ok tt w1' ->
    mtglib.Err demo2.first w1' = Ok (Some Canceled) w1'.
Proof.
  assert (V : ctx_valid demo2.world (CancelCtx 0)) by (simpl; lia).
  assert (E : mtglib.newStreamContext demo.IP_String (CancelCtx 0)
                (Some demo.root_logger) (Some 0) demo2.world
              = Ok demo2.first demo2.after_first) by reflexivity.
  split; [exact demo2_world_wf|]. split; [exact V|]. split; [exact E|].
  exact (newStreamContext_inherits demo.IP_String _ _ _ _ _ _ demo2_world_wf V E).
Defined.

Section StreamContextExtras3.

Variable IP_String : IP -> string.

(** X3: [Close] of a stream context reaches the streams derived from
    it and no others.  For two contexts made one after the other on
    different connections, [Close] of the first returns and the first
    answers [context.Canceled]; the second answers [context.Canceled]
    too when it was derived from the first, and answers [Err] as
    before when it was derived from any other context; its connection
    has not been closed in either case. *)
Theorem Close_reaches_derived_streams_only (ctxA ctxB : Context)
    (lgA lgB : option Logger) (connA connB : Conn) (w w1 w2 : World)
    (s1 s2 : mtglib.streamContext) :
  ctxs_wf (ctxs w) -> ctx_valid w ctxA -> ctx_valid w1 ctxB ->
  mtglib.newStreamContext IP_String ctxA lgA connA w = Ok s1 w1 ->
  mtglib.newStreamContext IP_String ctxB lgB connB w1 = Ok s2 w2 ->
  connA <> connB ->
  exists w3,
    mtglib.Close s1 w2 = Ok tt w3 /\
    mtglib.Err s1 w3 = Ok (Some Canceled) w3 /\
    (ctxB = mtglib.ctx s1 -> mtglib.Err s2 w3 = Ok (Some Canceled) w3) /\
    (ctxB <> mtglib.ctx s1 ->
     forall e, mtglib.Err s2 w2 = Ok e w2 -> mtglib.Err s2 w3 = Ok e w3) /\
    (forall r, connB = Some r -> conns w3 !! r = conns w2 !! r).
Proof.
  intros WF VA VB E1 E2 N.
  pose proof (newStreamContext_well_formed IP_String _ _ _ _ _ _ E1) as WF1.
  destruct (newStreamContext_Ok_inv IP_String _ _ _ _ _ _ E1)
    as (lg1 & r1 & o1 & t1 & -> & -> & Er1 & Ea1 & L1 & -> & ->).
  destruct (newStreamContext_Ok_inv IP_String _ _ _ _ _ _ E2)
    as (lg2 & r2 & o2 & t2 & -> & -> & Er2 & Ea2 & L2 & -> & ->).
  set (s1 := {| mtglib.ctx := CancelCtx (length (ctxs w)) |}) in *.
  set (w1 := drawn ctxA w) in *.
  set (w2 := drawn ctxB w1) in *.
  assert (Len1 : length (ctxs w1) = S (length (ctxs w)))
    by (unfold w1; rewrite drawn_ctxs, length_app; cbn [length]; lia).
  assert (Len2 : length (ctxs w2) = S (S (length (ctxs w))))
    by (unfold w2; rewrite drawn_ctxs, length_app, Len1; cbn [length]; lia).
  assert (WF2 : well_formed w2 s1).
  { destruct WF1 as (Lg & C & V). repeat split; [assumption| |].
    - rewrite Len2. cbn. lia.
    - intros r I. unfold w2. rewrite drawn_conns. now apply V. }
  destruct (Close_once s1 w2 WF2) as (w3 & E3 & C).
  assert (C3 : ctxs w3 = cancelled (length (ctxs w)) (ctxs w2))
    by (destruct C as (-> & _); reflexivity).
  assert (D1 : ctxDone <$> ctxs w3 !! length (ctxs w) = Some true).
  { rewrite C3. apply cancelled_done. lia. }
  assert (Eo : ctxs w3 !! S (length (ctxs w))
               = Some {| ctxParent := ctxB; ctxDone := ctx_done w1 ctxB |}).
  { rewrite C3, cancelled_lookup_ne by lia. unfold w2. rewrite drawn_ctxs.
    rewrite <- Len1. apply lookup_snoc_here. }
  assert (Lw3 : length (ctxs w3) = S (S (length (ctxs w))))
    by (rewrite C3, cancelled_length; exact Len2).
  exists w3. split; [exact E3|]. split; [|split; [|split]].
  - unfold mtglib.Err. cbn [mtglib.ctx s1]. f_equal. now apply ctx_Err_done.
  - intros EB. unfold mtglib.Err. cbn [mtglib.ctx]. f_equal.
    rewrite Lw3, Len1, ctx_Err_S, Eo. cbn [ctxDone ctxParent].
    destruct (ctx_done w1 ctxB); [reflexivity|].
    rewrite EB. cbn [mtglib.ctx s1]. rewrite ctx_Err_S.
    destruct (ctxs w3 !! length (ctxs w)) as [o|]; [|discriminate].
    injection D1 as ->. reflexivity.
  - intros NB.
    assert (G : ctx_Err (length (ctxs w3)) w3 (CancelCtx (length (ctxs w1)))
                = ctx_Err (length (ctxs w2)) w2 (CancelCtx (length (ctxs w1)))).
    { assert (WFw1 : ctxs_wf (ctxs w1)).
      { unfold w1. rewrite drawn_ctxs. now apply ctxs_wf_snoc. }
      assert (WFw2 : ctxs_wf (ctxs w2)).
      { unfold w2. rewrite drawn_ctxs. apply ctxs_wf_snoc; [assumption|].
        destruct ctxB as [|p]; [trivial|]. exact VB. }
      rewrite Lw3, Len1, Len2, !ctx_Err_S, Eo.
      assert (Eo2 : ctxs w2 !! S (length (ctxs w))
                    = Some {| ctxParent := ctxB; ctxDone := ctx_done w1 ctxB |}).
      { unfold w2. rewrite drawn_ctxs. rewrite <- Len1. apply lookup_snoc_here. }
      rewrite Eo2. cbn [ctxDone ctxParent].
      destruct (ctx_done w1 ctxB); [reflexivity|].
      destruct ctxB as [|p].
      + now rewrite !ctx_Err_Background.
      + unfold ctx_valid in VB. rewrite Len1 in VB.
        assert (p <> length (ctxs w)) by (intros ->; now apply NB).
        apply ctx_Err_agree; [assumption|].
        intros i Li. rewrite C3. apply cancelled_lookup_ne. lia. }
    intros e. unfold mtglib.Err. intros [= <-]. f_equal. exact G.
  - intros r [= <-]. apply (closes_untouched _ _ _ _ C).
    unfold conn_refs. cbn. intros [->|[]]. now apply N.
Qed.

(** X4: the logger of a fresh stream context is the logger handed in
    with two more fields, in this order: the stream id of the context
    under "stream-id" and, under "client-ip", the text of the address
    that [ClientIP] answers. *)
Theorem newStreamContext_logger (ctx0 : Context) (logger0 : option Logger)
    (conn : Conn) (w w1 : World) (s : mtglib.streamContext) :
  mtglib.newStreamContext IP_String ctx0 logger0 conn w = Ok s w1 ->
  exists lg lg' ip,
    logger0 = Some lg /\ mtglib.logger s = Some lg' /\
    mtglib.ClientIP s w1 = Ok ip w1 /\
    logName lg' = logName lg /\
    logFields lg'
    = logFields lg ++ [("stream-id", mtglib.streamID s); ("client-ip", IP_String ip)].
Proof.
  intros E.
  destruct (newStreamContext_Ok_inv IP_String _ _ _ _ _ _ E)
    as (lg & r & o & t & -> & -> & Er & Ea & L & -> & ->).
  eexists lg, _, (tcp_IP t). split; [reflexivity|]. split; [reflexivity|].
  split; [|split].
  - unfold mtglib.ClientIP, mbind, M_bind, conn_RemoteAddr.
    cbn [mtglib.clientConn]. rewrite drawn_conns, Er, Ea. reflexivity.
  - reflexivity.
  - cbn. now rewrite <- app_assoc.
Qed.

(** X5: whether it returns or panics, [newStreamContext] touches no
    connection (it never closes the one it was given), emits no log
    record, and changes no context that exists: at most it adds one. *)
Theorem newStreamContext_frame (ctx0 : Context) (logger0 : option Logger)
    (conn : Conn) (w : World) :
  conns (state_of (mtglib.newStreamContext IP_String ctx0 logger0 conn w)) = conns w /\
  logs (state_of (mtglib.newStreamContext IP_String ctx0 logger0 conn w)) = logs w /\
  backlogs (state_of (mtglib.newStreamContext IP_String ctx0 logger0 conn w))
  = backlogs w /\
  exists added,
    ctxs (state_of (mtglib.newStreamContext IP_String ctx0 logger0 conn w))
    = ctxs w ++ added /\ length added <= 1.
Proof.
  destruct (Nat.le_gt_cases mtglib.ConnectionIDBytesLength (length (randPool w)))
    as [L|L].
  2:{ rewrite newStreamContext_rand_failure by assumption.
      do 3 (split; [reflexivity|]). exists [].
      split; [now rewrite app_nil_r | simpl; lia]. }
  assert (K : state_of (mtglib.newStreamContext IP_String ctx0 logger0 conn w)
              = drawn ctx0 w).
  { destruct logger0 as [lg|].
    - rewrite newStreamContext_run by assumption.
      destruct conn as [r|]; [|reflexivity].
      destruct (conns w !! r) as [o|]; [|reflexivity].
      destruct (remoteAddr o) as [|[t|]| |]; reflexivity.
    - unfold mtglib.newStreamContext, mbind, M_bind, crand_Read.
      destruct (decide (mtglib.ConnectionIDBytesLength <= length (randPool w)));
        [reflexivity|lia]. }
  rewrite K. do 3 (split; [reflexivity|]).
  eexists. split; [apply drawn_ctxs|]. simpl. lia.
Qed.

End StreamContextExtras3.

(** X6: [Close] does not change what [ClientIP] answers: the address
    of the client can still be read from a closed stream context. *)
Theorem ClientIP_after_Close (s : mtglib.streamContext) (w : World) (ip : IP) :
  well_formed w s ->
  mtglib.ClientIP s w = Ok ip w ->
  exists w', mtglib.Close s w = Ok tt w' /\ mtglib.ClientIP s w' = Ok ip w'.
Proof.
  intros WF E. destruct (Close_once s w WF) as (w' & E' & C).
  exists w'. split; [exact E'|].
  apply (ClientIP_closes _ _ _ _ _ C).
  unfold mtglib.ClientIP in *.
  destruct (mtglib.clientConn s) as [r|]; [|discriminate].
  unfold mbind, M_bind, conn_RemoteAddr in *. cbn [conns set_ctxs].
  destruct (conns w !! r) as [o|]; [|discriminate]. cbn in *.
  destruct (remoteAddr o) as [|[t|]| |]; try discriminate.
  unfold mret, M_ret in *. now injection E as ->.
Qed.

Lemma Close_reaches_derived_streams_only_witness :
  (exists w3,
     mtglib.Close demo2.first demo2.after_second = Ok tt w3 /\
     mtglib.Err demo2.first w3 = Ok (Some Canceled) w3 /\
     (CancelCtx 0 = mtglib.ctx demo2.first ->
      mtglib.Err demo2.second w3 = Ok (Some Canceled) w3) /\
     (CancelCtx 0 <> mtglib.ctx demo2.first ->
      forall e, mtglib.Err demo2.second demo2.after_second = Ok e demo2.after_second ->
                mtglib.Err demo2.second w3 = Ok e w3) /\
     (forall r, Some 1 = Some r -> conns w3 !! r = conns demo2.after_second !! r)) /\
  (exists w3,
     mtglib.Close demo2.first demo2.after_derived = Ok tt w3 /\
     mtglib.Err demo2.first w3 = Ok (Some Canceled) w3 /\
     (CancelCtx 1 = mtglib.ctx demo2.first ->
      mtglib.Err demo2.second w3 = Ok (Some Canceled) w3) /\
     (CancelCtx 1 <> mtglib.ctx demo2.first ->
      forall e, mtglib.Err demo2.second demo2.after_derived = Ok e demo2.after_derived ->
                mtglib.Err demo2.second w3 = Ok e w3) /\
     (forall r, Some 1 = Some r -> conns w3 !! r = conns demo2.after_derived !! r)).
Proof.
  assert (V : ctx_valid demo2.world (CancelCtx 0)) by (simpl; lia).
  assert (V0 : ctx_valid demo2.after_first (CancelCtx 0)) by (simpl; lia).
  assert (V1 : ctx_valid demo2.after_first (CancelCtx 1)) by (simpl; lia).
  assert (E1 : mtglib.newStreamContext demo.IP_String (CancelCtx 0)
                 (Some demo.root_logger) (Some 0) demo2.world
               = Ok demo2.first demo2.after_first) by reflexivity.
  assert (E2 : mtglib.newStreamContext demo.IP_String (CancelCtx 0)
                 (Some demo.root_logger) (Some 1) demo2.after_first
               = Ok demo2.second demo2.after_second) by reflexivity.
  assert (E3 : mtglib.newStreamContext demo.IP_String (CancelCtx 1)
                 (Some demo.root_logger) (Some 1) demo2.after_first
               = Ok demo2.second demo2.after_derived) by reflexivity.
  split.
  - apply (Close_reaches_derived_streams_only demo.IP_String _ _ _ _ _ _ _ _ _ _ _
             demo2_world_wf V V0 E1 E2).
    discriminate.
  - apply (Close_reaches_derived_streams_only demo.IP_String _ _ _ _ _ _ _ _ _ _ _
             demo2_world_wf V V1 E1 E3).
    discriminate.
Defined.

Lemma newStreamContext_logger_witness :
  mtglib.newStreamContext demo.IP_String (CancelCtx 0) (Some demo.root_logger) (Some 0)
    demo2.world = Ok demo2.first demo2.after_first /\
  exists lg lg' ip,
    Some demo.root_logger = Some lg /\ mtglib.logger demo2.first = Some lg' /\
    mtglib.ClientIP demo2.first demo2.after_first = Ok ip demo2.after_first /\
    logName lg' = logName lg /\
    logFields lg'
    = logFields lg ++ [("stream-id", mtglib.streamID demo2.first);
                       ("client-ip", demo.IP_String ip)].
Proof.
  assert (E : mtglib.newStreamContext demo.IP_String (CancelCtx 0)
                (Some demo.root_logger) (Some 0) demo2.world
              = Ok demo2.first demo2.after_first) by reflexivity.
  split; [exact E|].
  exact (newStreamContext_logger demo.IP_String _ _ _ _ _ _ E).
Defined.

Lemma ClientIP_after_Close_witness :
  well_formed demo.world demo.stream /\
  mtglib.ClientIP demo.stream demo.world = Ok [x0a; x00; x00; x0a] demo.world /\
  exists w', mtglib.Close demo.stream demo.world = Ok tt w' /\
             mtglib.ClientIP demo.stream w' = Ok [x0a; x00; x00; x0a] w'.
Proof.
  assert (WF : well_formed demo.world demo.stream).
  { repeat split.
    - eexists; reflexivity.
    - simpl; lia.
    - intros r [<-|[<-|[]]]; simpl; lia. }
  split; [exact WF|]. split; [reflexivity|].
  exact (ClientIP_after_Close demo.stream demo.world _ WF eq_refl).
Defined.

(** ** The stream id keeps the random bytes *)

Section Base64Arithmetic.

Local Open Scope N_scope.

Lemma land_shiftl_low (a b n : N) : b < 2 ^ n -> N.land (N.shiftl a n) b = 0.
Proof.
  intros L. apply N.bits_inj. intros i. rewrite N.land_spec, N.bits_0.
  destruct (N.lt_ge_cases i n) as [Li|Gi].
  - now rewrite N.shiftl_spec_low.
  - rewrite <- (N.mod_small b (2 ^ n)) by assumption.
    rewrite N.mod_pow2_bits_high by assumption. apply andb_false_r.
Qed.

Lemma lor_shiftl_low (a b n : N) :
  b < 2 ^ n -> N.lor (N.shiftl a n) b = a * 2 ^ n + b.
Proof.
  intros L. rewrite <- N.lxor_lor by (now apply land_shiftl_low).
  rewrite <- N.add_nocarry_lxor by (now apply land_shiftl_low).
  now rewrite N.shiftl_mul_pow2.
Qed.

(** The 24-bit group of three bytes, as a sum. *)
Lemma group_of_3 (a b c : N) :
  b < 256 -> c < 256 ->
  N.lor (N.lor (N.shiftl a 16) (N.shiftl b 8)) c = 65536 * a + 256 * b + c.
Proof.
  intros Lb Lc.
  replace (N.shiftl a 16) with (N.shiftl (N.shiftl a 8) 8)
    by (rewrite N.shiftl_shiftl; reflexivity).
  rewrite <- N.shiftl_lor.
  rewrite (lor_shiftl_low _ c 8) by exact Lc.
  rewrite (lor_shiftl_low a b 8) by exact Lb.
  change (2 ^ 8) with 256. lia.
Qed.

Lemma group_of_2 (a b : N) :
  b < 256 -> N.lor (N.shiftl a 16) (N.shiftl b 8) = 65536 * a + 256 * b.
Proof.
  intros Lb. rewrite <- (N.lor_0_r (N.lor _ _)).
  rewrite group_of_3 by (assumption || reflexivity). lia.
Qed.

Lemma group_of_1 (a : N) : N.shiftl a 16 = 65536 * a.
Proof. rewrite N.shiftl_mul_pow2. change (2 ^ 16) with 65536. lia. Qed.

Lemma sextet (v k : N) : N.land (N.shiftr v k) 63 = (v / 2 ^ k) mod 64.
Proof.
  rewrite N.shiftr_div_pow2. change 63 with (N.ones 6). now rewrite N.land_ones.
Qed.

Lemma sextet18 (v : N) : N.land (N.shiftr v 18) 63 = (v / 64 / 64 / 64) mod 64.
Proof. rewrite sextet, !N.Div0.div_div. reflexivity. Qed.

Lemma sextet12 (v : N) : N.land (N.shiftr v 12) 63 = (v / 64 / 64) mod 64.
Proof. rewrite sextet, !N.Div0.div_div. reflexivity. Qed.

Lemma sextet6 (v : N) : N.land (N.shiftr v 6) 63 = (v / 64) mod 64.
Proof. rewrite sextet. reflexivity. Qed.

Lemma sextet0 (v : N) : N.land v 63 = v mod 64.
Proof. change 63 with (N.ones 6). now rewrite N.land_ones. Qed.

Ltac dm64 t :=
  pose proof (N.div_mod' t 64); pose proof (N.mod_lt t 64 ltac:(discriminate)).

(** Four sextets determine a 24-bit group. *)
Lemma group_inj (x y : N) :
  x < 16777216 -> y < 16777216 ->
  (x / 64 / 64 / 64) mod 64 = (y / 64 / 64 / 64) mod 64 ->
  (x / 64 / 64) mod 64 = (y / 64 / 64) mod 64 ->
  (x / 64) mod 64 = (y / 64) mod 64 ->
  x mod 64 = y mod 64 -> x = y.
Proof.
  intros Lx Ly H3 H2 H1 H0.
  dm64 x; dm64 (x / 64); dm64 (x / 64 / 64); dm64 (x / 64 / 64 / 64).
  dm64 y; dm64 (y / 64); dm64 (y / 64 / 64); dm64 (y / 64 / 64 / 64).
  lia.
Qed.

Lemma div64_mul (k : N) : 64 * k / 64 = k.
Proof. rewrite N.mul_comm. apply N.div_mul. discriminate. Qed.

(** Two sextets determine a last single byte. *)
Lemma single_inj (a b : N) :
  a < 256 -> b < 256 ->
  (65536 * a / 64 / 64 / 64) mod 64 = (65536 * b / 64 / 64 / 64) mod 64 ->
  (65536 * a / 64 / 64) mod 64 = (65536 * b / 64 / 64) mod 64 -> a = b.
Proof.
  intros La Lb.
  replace (65536 * a) with (64 * (64 * (16 * a))) by lia.
  replace (65536 * b) with (64 * (64 * (16 * b))) by lia.
  rewrite !div64_mul. intros H3 H2.
  dm64 (16 * a); dm64 (16 * a / 64). dm64 (16 * b); dm64 (16 * b / 64).
  lia.
Qed.

(** Three sextets determine two last bytes. *)
Lemma pair_inj (a b a' b' : N) :
  a < 256 -> b < 256 -> a' < 256 -> b' < 256 ->
  ((65536 * a + 256 * b) / 64 / 64 / 64) mod 64
  = ((65536 * a' + 256 * b') / 64 / 64 / 64) mod 64 ->
  ((65536 * a + 256 * b) / 64 / 64) mod 64
  = ((65536 * a' + 256 * b') / 64 / 64) mod 64 ->
  ((65536 * a + 256 * b) / 64) mod 64 = ((65536 * a' + 256 * b') / 64) mod 64 ->
  a = a' /\ b = b'.
Proof.
  intros La Lb La' Lb'.
  replace (65536 * a + 256 * b) with (64 * (1024 * a + 4 * b)) by lia.
  replace (65536 * a' + 256 * b') with (64 * (1024 * a' + 4 * b')) by lia.
  rewrite !div64_mul. intros H3 H2 H1.
  set (x := 1024 * a + 4 * b) in *. set (y := 1024 * a' + 4 * b') in *.
  assert (x < 262144) by (unfold x; lia). assert (y < 262144) by (unfold y; lia).
  dm64 x; dm64 (x / 64); dm64 (x / 64 / 64).
  dm64 y; dm64 (y / 64); dm64 (y / 64 / 64).
  assert (x = y) by lia. unfold x, y in *. lia.
Qed.

Lemma byte_lt (b : byte) : Byte.to_N b < 256.
Proof. pose proof (Byte.to_N_bounded b). lia. Qed.

Lemma to_N_inj (b b' : byte) : Byte.to_N b = Byte.to_N b' -> b = b'.
Proof.
  intros E. pose proof (Byte.of_to_N b) as Hb. rewrite E, Byte.of_to_N in Hb.
  now injection Hb.
Qed.

(** The alphabet has 64 different characters: [decodeMap] finds the
    sextet of every character [encode] picks. *)
Lemma decodeMap_encode (v : N) : v < 64 -> decodeMap (base64.encode v) = Some v.
Proof.
  intros L.
  assert (K : forallb (fun n => match decodeMap (base64.encode (N.of_nat n)) with
                                | Some m => N.eqb m (N.of_nat n)
                                | None => false
                                end) (seq 0 64) = true) by (vm_compute; reflexivity).
  rewrite forallb_forall in K.
  specialize (K (N.to_nat v)). rewrite N2Nat.id in K.
  assert (I : In (N.to_nat v) (seq 0 64)) by (apply in_seq; lia).
  specialize (K I).
  destruct (decodeMap (base64.encode v)) as [m|]; [|discriminate].
  apply N.eqb_eq in K. now subst.
Qed.

Lemma encode_inj (x y : N) :
  base64.encode (x mod 64) = base64.encode (y mod 64) -> x mod 64 = y mod 64.
Proof.
  intros E.
  pose proof (decodeMap_encode (x mod 64) (N.mod_lt x 64 ltac:(discriminate))) as Hx.
  pose proof (decodeMap_encode (y mod 64) (N.mod_lt y 64 ltac:(discriminate))) as Hy.
  rewrite E, Hy in Hx. now injection Hx.
Qed.

End Base64Arithmetic.

Lemma Encode_inj (a b : list byte) : base64.Encode a = base64.Encode b -> a = b.
Proof.
  revert b.
  induction a as [| a0 | a0 a1 | a0 a1 a2 l IH] using list_ind3;
    intros b E; destruct b as [|b0 [|b1 [|b2 l']]];
    cbn [base64.Encode] in E; try discriminate E; try reflexivity.
  - injection E as E3 E2.
    rewrite !sextet18, !group_of_1 in E3. rewrite !sextet12, !group_of_1 in E2.
    apply encode_inj in E3, E2.
    f_equal. apply to_N_inj.
    apply single_inj; auto using byte_lt.
  - injection E as E3 E2 E1.
    rewrite !sextet18, !group_of_2 in E3 by apply byte_lt.
    rewrite !sextet12, !group_of_2 in E2 by apply byte_lt.
    rewrite !sextet6, !group_of_2 in E1 by apply byte_lt.
    apply encode_inj in E3, E2, E1.
    destruct (pair_inj _ _ _ _ (byte_lt a0) (byte_lt a1) (byte_lt b0) (byte_lt b1)
                E3 E2 E1) as [Ea Eb].
    apply to_N_inj in Ea, Eb. now subst.
  - injection E as E3 E2 E1 E0 El.
    rewrite !sextet18, !group_of_3 in E3 by apply byte_lt.
    rewrite !sextet12, !group_of_3 in E2 by apply byte_lt.
    rewrite !sextet6, !group_of_3 in E1 by apply byte_lt.
    rewrite !sextet0, !group_of_3 in E0 by apply byte_lt.
    apply encode_inj in E3, E2, E1, E0.
    pose proof (byte_lt a0). pose proof (byte_lt a1). pose proof (byte_lt a2).
    pose proof (byte_lt b0). pose proof (byte_lt b1). pose proof (byte_lt b2).
    assert (G : (65536 * Byte.to_N a0 + 256 * Byte.to_N a1 + Byte.to_N a2
                 = 65536 * Byte.to_N b0 + 256 * Byte.to_N b1 + Byte.to_N b2)%N)
      by (apply group_inj; try assumption; lia).
    assert (Ea : Byte.to_N a0 = Byte.to_N b0) by lia.
    assert (Eb : Byte.to_N a1 = Byte.to_N b1) by lia.
    assert (Ec : Byte.to_N a2 = Byte.to_N b2) by lia.
    apply to_N_inj in Ea, Eb, Ec. subst. do 3 f_equal. now apply IH.
Qed.


Lemma EncodeToString_inj (a b : list byte) :
  base64.EncodeToString a = base64.EncodeToString b -> a = b.
Proof.
  unfold base64.EncodeToString. intros E.
  apply (f_equal list_ascii_of_string) in E.
  rewrite !list_ascii_of_string_of_list_ascii in E. now apply Encode_inj.
Qed.

(** X7: the stream id keeps the random bytes it was made from.  Two
    contexts from [newStreamContext] have the same stream id exactly
    when the 16 bytes drawn for them were the same. *)
Theorem streamID_injective (IP_String1 IP_String2 : IP -> string)
    (ctxA ctxB : Context) (lgA lgB : option Logger) (connA connB : Conn)
    (wA wA' wB wB' : World) (sA sB : mtglib.streamContext) :
  mtglib.newStreamContext IP_String1 ctxA lgA connA wA = Ok sA wA' ->
  mtglib.newStreamContext IP_String2 ctxB lgB connB wB = Ok sB wB' ->
  (mtglib.streamID sA = mtglib.streamID sB <->
   take mtglib.ConnectionIDBytesLength (randPool wA)
   = take mtglib.ConnectionIDBytesLength (randPool wB)).
Proof.
  intros EA EB.
  destruct (newStreamContext_Ok_inv _ _ _ _ _ _ _ EA)
    as (lg1 & r1 & o1 & t1 & _ & _ & _ & _ & _ & _ & ->).
  destruct (newStreamContext_Ok_inv _ _ _ _ _ _ _ EB)
    as (lg2 & r2 & o2 & t2 & _ & _ & _ & _ & _ & _ & ->).
  cbn [mtglib.streamID]. split.
  - apply EncodeToString_inj.
  - now intros ->.
Qed.

Lemma streamID_injective_witness :
  mtglib.newStreamContext demo.IP_String (CancelCtx 0) (Some demo.root_logger) (Some 0)
    demo2.world = Ok demo2.first demo2.after_first /\
  mtglib.newStreamContext demo.IP_String (CancelCtx 0) (Some demo.root_logger) (Some 1)
    demo2.after_first = Ok demo2.second demo2.after_second /\
  (mtglib.streamID demo2.first = mtglib.streamID demo2.second <->
   take mtglib.ConnectionIDBytesLength (randPool demo2.world)
   = take mtglib.ConnectionIDBytesLength (randPool demo2.after_first)).
Proof.
  assert (E1 : mtglib.newStreamContext demo.IP_String (CancelCtx 0)
                 (Some demo.root_logger) (Some 0) demo2.world
               = Ok demo2.first demo2.after_first) by reflexivity.
  assert (E2 : mtglib.newStreamContext demo.IP_String (CancelCtx 0)
                 (Some demo.root_logger) (Some 1) demo2.after_first
               = Ok demo2.second demo2.after_second) by reflexivity.
  split; [exact E1|]. split; [exact E2|].
  exact (streamID_injective _ _ _ _ _ _ _ _ _ _ _ _ _ _ E1 E2).
Defined.

Section StreamContextExtras4.

Variable IP_String : IP -> string.

(** X8: stream contexts made one after the other take consecutive
    segments of the random source: the second id is the text of bytes
    16 to 31, no byte serves two ids, and the two ids differ unless
    the two segments are the same. *)
Theorem consecutive_streamIDs (ctxA ctxB : Context) (lgA lgB : option Logger)
    (connA connB : Conn) (w w1 w2 : World) (s1 s2 : mtglib.streamContext) :
  mtglib.newStreamContext IP_String ctxA lgA connA w = Ok s1 w1 ->
  mtglib.newStreamContext IP_String ctxB lgB connB w1 = Ok s2 w2 ->
  mtglib.streamID s1 = base64.EncodeToString (take 16 (randPool w)) /\
  mtglib.streamID s2 = base64.EncodeToString (take 16 (drop 16 (randPool w))) /\
  randPool w2 = drop 32 (randPool w) /\
  (take 16 (randPool w) <> take 16 (drop 16 (randPool w)) ->
   mtglib.streamID s1 <> mtglib.streamID s2).
Proof.
  intros E1 E2.
  destruct (newStreamContext_Ok_inv _ _ _ _ _ _ _ E1)
    as (lg1 & r1 & o1 & t1 & _ & _ & _ & _ & _ & -> & ->).
  destruct (newStreamContext_Ok_inv _ _ _ _ _ _ _ E2)
    as (lg2 & r2 & o2 & t2 & _ & _ & _ & _ & _ & -> & ->).
  cbn [mtglib.streamID]. split; [reflexivity|]. split; [reflexivity|]. split.
  - cbn [randPool drawn set_ctxs set_randPool]. unfold mtglib.ConnectionIDBytesLength.
    now rewrite drop_drop.
  - intros N E. apply N. now apply EncodeToString_inj.
Qed.

End StreamContextExtras4.

Lemma consecutive_streamIDs_witness :
  mtglib.newStreamContext demo.IP_String (CancelCtx 0) (Some demo.root_logger) (Some 0)
    demo2.world = Ok demo2.first demo2.after_first /\
  mtglib.newStreamContext demo.IP_String (CancelCtx 0) (Some demo.root_logger) (Some 1)
    demo2.after_first = Ok demo2.second demo2.after_second /\
  mtglib.streamID demo2.first
  = base64.EncodeToString (take 16 (randPool demo2.world)) /\
  mtglib.streamID demo2.second
  = base64.EncodeToString (take 16 (drop 16 (randPool demo2.world))) /\
  randPool demo2.after_second = drop 32 (randPool demo2.world) /\
  (take 16 (randPool demo2.world) <> take 16 (drop 16 (randPool demo2.world)) ->
   mtglib.streamID demo2.first <> mtglib.streamID demo2.second).
Proof.
  assert (E1 : mtglib.newStreamContext demo.IP_String (CancelCtx 0)
                 (Some demo.root_logger) (Some 0) demo2.world
               = Ok demo2.first demo2.after_first) by reflexivity.
  assert (E2 : mtglib.newStreamContext demo.IP_String (CancelCtx 0)
                 (Some demo.root_logger) (Some 1) demo2.after_first
               = Ok demo2.second demo2.after_second) by reflexivity.
  split; [exact E1|]. split; [exact E2|].
  exact (consecutive_streamIDs demo.IP_String _ _ _ _ _ _ _ _ _ _ _ E1 E2).
Defined.

(** ** More of Listener.Accept *)

(** [Accept] on a backlog whose next connection can be tuned. *)
Lemma Accept_tuned (l : utils.Listener) (w : World) (c : ConnObj)
    (rest : list AcceptOutcome) :
  backlogs w !! utils.base l = Some (Accepted c :: rest) ->
  sockoptResult c = None ->
  utils.Accept l w
  = Ok (Some (length (conns w)), None)
       (set_conns (fun cs => cs ++ [tune c])
          (set_backlogs (fun bl => <[utils.base l := rest]> bl) w)).
Proof.
  intros B S.
  unfold utils.Accept, mbind, M_bind, utils.base_Accept. rewrite B.
  unfold utils.SetClientSocketOptions. cbn [conns set_conns set_backlogs].
  rewrite lookup_snoc_here, S.
  unfold mret, M_ret. f_equal.
  unfold set_conns at 1. cbn [conns ctxs randPool randErr logs backlogs set_conns
                               set_backlogs].
  rewrite insert_snoc_here. unfold tune. now rewrite S.
Qed.

(** X9: [Accept] hands out or closes whatever the base listener
    accepted, also when it panics: the connection becomes one new
    object of the store, which is either returned with its options
    applied and never closed, or not returned and closed exactly once. *)
Theorem Accept_hands_out_or_closes (l : utils.Listener) (w : World) (c : ConnObj)
    (rest : list AcceptOutcome) :
  backlogs w !! utils.base l = Some (Accepted c :: rest) ->
  (exists w', utils.Accept l w = Ok (Some (length (conns w)), None) w' /\
              conns w' = conns w ++ [tune c]) \/
  (conns (state_of (utils.Accept l w)) = conns w ++ [bump 1 c] /\
   forall r err w', utils.Accept l w <> Ok (Some r, err) w').
Proof.
  intros B. destruct (sockoptResult c) as [e|] eqn:S.
  - right. rewrite (Accept_untuned l w c rest e B S). cbv zeta.
    destruct (closeScript c (closeCalls c)); (split; [reflexivity|discriminate]).
  - left. rewrite (Accept_tuned l w c rest B S). eexists. split; reflexivity.
Qed.

Lemma Accept_hands_out_or_closes_witness :
  backlogs demo2.accepting !! utils.base demo.listener0
  = Some [Accepted demo.untunable; Accepted demo.client; Accepted demo.telegram] /\
  ((exists w', utils.Accept demo.listener0 demo2.accepting
               = Ok (Some (length (conns demo2.accepting)), None) w' /\
               conns w' = conns demo2.accepting ++ [tune demo.untunable]) \/
   (conns (state_of (utils.Accept demo.listener0 demo2.accepting))
    = conns demo2.accepting ++ [bump 1 demo.untunable] /\
    forall r err w', utils.Accept demo.listener0 demo2.accepting
                     <> Ok (Some r, err) w')).
Proof.
  split; [reflexivity|].
  exact (Accept_hands_out_or_closes demo.listener0 demo2.accepting demo.untunable _
           eq_refl).
Defined.

(** X10: an error of the base listener is returned as it is, not
    wrapped, with no connection; no connection object is made or
    touched and the listener goes on with the rest of its backlog. *)
Theorem Accept_base_error (l : utils.Listener) (w : World) (e : error)
    (rest : list AcceptOutcome) :
  backlogs w !! utils.base l = Some (AcceptFailed e :: rest) ->
  exists w',
    utils.Accept l w = Ok (None, Some e) w' /\
    conns w' = conns w /\
    backlogs w' !! utils.base l = Some rest.
Proof.
  intros B. unfold utils.Accept, mbind, M_bind, utils.base_Accept. rewrite B.
  eexists. split; [reflexivity|]. split; [reflexivity|].
  cbn [backlogs set_backlogs]. apply list_lookup_insert_eq.
  now apply lookup_lt_Some with (AcceptFailed e :: rest).
Qed.

Lemma Accept_base_error_witness :
  backlogs demo2.accepting !! utils.base demo.listener1
  = Some [AcceptFailed (errorString "accept: too many open files")] /\
  exists w',
    utils.Accept demo.listener1 demo2.accepting
    = Ok (None, Some (errorString "accept: too many open files")) w' /\
    conns w' = conns demo2.accepting /\
    backlogs w' !! utils.base demo.listener1 = Some [].
Proof.
  split; [reflexivity|].
  exact (Accept_base_error demo.listener1 demo2.accepting _ _ eq_refl).
Defined.

(** The state after [Accept], by what the backlog holds. *)
Lemma Accept_state (l : utils.Listener) (w : World) :
  state_of (utils.Accept l w)
  = match backlogs w !! utils.base l with
    | None | Some [] => w
    | Some (AcceptFailed e :: rest) =>
        set_backlogs (fun bl => <[utils.base l := rest]> bl) w
    | Some (Accepted c :: rest) =>
        set_conns (fun cs => cs ++ [match sockoptResult c with
                                    | None => tune c
                                    | Some _ => bump 1 c
                                    end])
          (set_backlogs (fun bl => <[utils.base l := rest]> bl) w)
    end.
Proof.
  destruct (backlogs w !! utils.base l) as [[|[c|e] rest]|] eqn:B.
  - unfold utils.Accept, mbind, M_bind, utils.base_Accept. now rewrite B.
  - destruct (sockoptResult c) as [e|] eqn:S.
    + rewrite (Accept_untuned l w c rest e B S). cbv zeta.
      now destruct (closeScript c (closeCalls c)).
    + now rewrite (Accept_tuned l w c rest B S).
  - unfold utils.Accept, mbind, M_bind, utils.base_Accept. now rewrite B.
  - unfold utils.Accept, mbind, M_bind, utils.base_Accept. now rewrite B.
Qed.

(** X11: whatever its outcome, [Accept] leaves alone every connection
    that existed, every context, the random source, the log and the
    backlog of every other listener; it adds at most one connection
    and takes at most one entry from its own backlog. *)
Theorem Accept_frame (l : utils.Listener) (w : World) :
  (forall r, r < length (conns w) ->
     conns (state_of (utils.Accept l w)) !! r = conns w !! r) /\
  length (conns (state_of (utils.Accept l w))) <= S (length (conns w)) /\
  ctxs (state_of (utils.Accept l w)) = ctxs w /\
  randPool (state_of (utils.Accept l w)) = randPool w /\
  logs (state_of (utils.Accept l w)) = logs w /\
  (forall k, k <> utils.base l ->
     backlogs (state_of (utils.Accept l w)) !! k = backlogs w !! k) /\
  (forall o rest, backlogs w !! utils.base l = Some (o :: rest) ->
     backlogs (state_of (utils.Accept l w)) !! utils.base l = Some rest).
Proof.
  rewrite Accept_state.
  destruct (backlogs w !! utils.base l) as [[|[c|e] rest]|] eqn:B;
    cbn [conns ctxs randPool logs backlogs set_conns set_backlogs].
  - repeat split; try reflexivity; try lia. discriminate.
  - repeat split; try reflexivity.
    + intros r L. now apply lookup_app_l.
    + rewrite length_app. simpl. lia.
    + intros k N. now apply list_lookup_insert_ne.
    + intros o rest' [= _ <-]. apply list_lookup_insert_eq.
      now apply lookup_lt_Some with (Accepted c :: rest).
  - repeat split; try reflexivity; try lia.
    + intros k N. now apply list_lookup_insert_ne.
    + intros o rest' [= _ <-]. apply list_lookup_insert_eq.
      now apply lookup_lt_Some with (AcceptFailed e :: rest).
  - repeat split; try reflexivity; try lia. discriminate.
Qed.

(** X12: a connection that cannot be tuned does not stop the
    listener.  When it closes well, [Accept] answers the error, and the
    next [Accept] hands out the next connection of the backlog, tuned
    and open, as a new object after the closed one. *)
Theorem Accept_after_failed_tuning (l : utils.Listener) (w : World)
    (bad good : ConnObj) (rest : list AcceptOutcome) (e : error) :
  backlogs w !! utils.base l = Some (Accepted bad :: Accepted good :: rest) ->
  sockoptResult bad = Some e ->
  closeScript bad (closeCalls bad) = None ->
  sockoptResult good = None ->
  exists w1 w2,
    utils.Accept l w = Ok (None, Some (wrapError "cannot set TCP options" e)) w1 /\
    utils.Accept l w1 = Ok (Some (S (length (conns w))), None) w2 /\
    conns w2 = conns w ++ [bump 1 bad; tune good] /\
    backlogs w2 !! utils.base l = Some rest.
Proof.
  intros B Sb Cb Sg.
  pose proof (Accept_untuned l w bad _ e B Sb) as E1. cbv zeta in E1.
  rewrite Cb in E1.
  eexists. eexists. split; [exact E1|].
  assert (L : utils.base l < length (backlogs w))
    by (now apply lookup_lt_Some with (Accepted bad :: Accepted good :: rest)).
  rewrite (Accept_tuned l _ good rest).
  - cbn [conns backlogs set_conns set_backlogs]. rewrite length_app.
    cbn [length]. rewrite Nat.add_comm. split; [reflexivity|].
    cbn [conns backlogs set_conns set_backlogs]. split.
    + now rewrite <- app_assoc.
    + rewrite list_insert_insert_eq. now apply list_lookup_insert_eq.
  - cbn [backlogs set_conns set_backlogs]. now apply list_lookup_insert_eq.
  - exact Sg.
Qed.

Lemma Accept_after_failed_tuning_witness :
  backlogs demo2.accepting !! utils.base demo.listener0
  = Some (Accepted demo.untunable :: Accepted demo.client :: [Accepted demo.telegram]) /\
  exists w1 w2,
    utils.Accept demo.listener0 demo2.accepting
    = Ok (None, Some (wrapError "cannot set TCP options"
                        (errorString "setsockopt: protocol not available"))) w1 /\
    utils.Accept demo.listener0 w1
    = Ok (Some (S (length (conns demo2.accepting))), None) w2 /\
    conns w2 = conns demo2.accepting ++ [bump 1 demo.untunable; tune demo.client] /\
    backlogs w2 !! utils.base demo.listener0 = Some [Accepted demo.telegram].
Proof.
  split; [reflexivity|].
  exact (Accept_after_failed_tuning demo.listener0 demo2.accepting demo.untunable
           demo.client _ _ eq_refl eq_refl eq_refl eq_refl).
Defined.

(** ** More of the constructors of package cli *)

Lemma splitURLs_acc (urls : list config.TypeBlocklistURI) (remote local : list string) :
  cli.splitURLs urls remote local
  = (remote ++ map config.uriString (List.filter config.IsRemote urls),
     local ++ map config.uriString
                (List.filter (fun v => negb (config.IsRemote v)) urls)).
Proof.
  revert remote local. induction urls as [|v urls IH]; intros remote local.
  - cbn. now rewrite !app_nil_r.
  - cbn [cli.splitURLs List.filter]. destruct (config.IsRemote v); cbn [negb map].
    + rewrite IH. now rewrite <- app_assoc.
    + rewrite IH. now rewrite <- app_assoc.
Qed.

(** X13: the loop of [makeIPBlocklist] sorts the configured URLs into
    the remote ones and the local ones: every URL goes to exactly one
    of the two lists and each list keeps the order of the
    configuration. *)
Theorem splitURLs_partition (urls : list config.TypeBlocklistURI) :
  cli.splitURLs urls [] []
  = (map config.uriString (List.filter config.IsRemote urls),
     map config.uriString (List.filter (fun v => negb (config.IsRemote v)) urls)) /\
  length (fst (cli.splitURLs urls [] [])) + length (snd (cli.splitURLs urls [] []))
  = length urls.
Proof.
  rewrite splitURLs_acc. cbn [app fst snd]. split; [reflexivity|].
  rewrite !length_map. induction urls as [|v urls IH]; [reflexivity|].
  cbn [List.filter]. destruct (config.IsRemote v); cbn [negb length]; lia.
Qed.

Section CliExtras.

Context `{cli.Externals}.

(** [makeIPBlocklist] with the list enabled, by what [NewFirehol]
    answers. *)
Lemma makeIPBlocklist_run (conf : config.ListConfig) (logger : Logger)
    (ntw : cli.Network) (updateCallback : cli.FireholUpdateCallback)
    (p : ipblocklist.Proc) :
  config.Enabled conf = Some true ->
  cli.makeIPBlocklist conf logger ntw updateCallback p
  = match cli.NewFirehol (Named "ipblockist" logger) ntw
            (config.Get (config.DownloadConcurrency conf) 1)
            (map config.uriString (List.filter config.IsRemote (config.URLs conf)))
            (map config.uriString
               (List.filter (fun v => negb (config.IsRemote v)) (config.URLs conf)))
            updateCallback p with
    | Ok (fh, None) p1 =>
        Ok (ipblocklist.BlFirehol fh, None)
           (ipblocklist.set_goroutines
              (fun gs => gs ++ [ipblocklist.GoRun (ipblocklist.BlFirehol fh)
                                  (config.Get (config.UpdateEach conf)
                                     cli.DefaultFireholUpdateEach)]) p1)
    | Ok (fh, Some e) p1 =>
        Ok (ipblocklist.BlNil, Some (wrapError "incorrect parameters for firehol" e)) p1
    | Panic x p1 => Panic x p1
    end.
Proof.
  intros E. unfold cli.makeIPBlocklist. rewrite E. cbn [config.Get negb].
  rewrite splitURLs_acc. cbn [app]. unfold mbind, M_bind.
  destruct (cli.NewFirehol _ _ _ _ _ _ p) as [[fh [e|]] p1|x p1]; reflexivity.
Qed.

(** X14: with the blocklist enabled, [makeIPBlocklist] gives the
    sources to [NewFirehol] in the order of the configuration.  When
    [NewFirehol] fails it returns no list and the wrapped error and
    starts nothing; when it succeeds it returns the list made and
    starts exactly one [Run] goroutine for it, with the configured
    update period or the default. *)
Theorem makeIPBlocklist_enabled (conf : config.ListConfig) (logger : Logger)
    (ntw : cli.Network) (updateCallback : cli.FireholUpdateCallback)
    (p p1 : ipblocklist.Proc) (fh : option nat) (err : option error) :
  config.Enabled conf = Some true ->
  cli.NewFirehol (Named "ipblockist" logger) ntw
    (config.Get (config.DownloadConcurrency conf) 1)
    (map config.uriString (List.filter config.IsRemote (config.URLs conf)))
    (map config.uriString
       (List.filter (fun v => negb (config.IsRemote v)) (config.URLs conf)))
    updateCallback p = Ok (fh, err) p1 ->
  exists p2,
    cli.makeIPBlocklist conf logger ntw updateCallback p
    = Ok (match err with
          | None => (ipblocklist.BlFirehol fh, None)
          | Some e => (ipblocklist.BlNil,
                       Some (wrapError "incorrect parameters for firehol" e))
          end) p2 /\
    ipblocklist.lists p2 = ipblocklist.lists p1 /\
    ipblocklist.goroutines p2
    = ipblocklist.goroutines p1 ++
      match err with
      | None => [ipblocklist.GoRun (ipblocklist.BlFirehol fh)
                   (config.Get (config.UpdateEach conf) cli.DefaultFireholUpdateEach)]
      | Some _ => []
      end.
Proof.
  intros E N. rewrite makeIPBlocklist_run by assumption. rewrite N.
  destruct err as [e|]; eexists; (split; [reflexivity|]); split; try reflexivity.
  now rewrite app_nil_r.
Qed.

(** X15: [makeIPAllowlist] never returns the no-op list, which would
    contain no address.  Whatever the configuration and whatever
    [NewFirehol] does, a list returned without error is a Firehol list
    whose [Run] goroutine has been started; with an error the list is
    nil and the error is wrapped as "cannot build allowlist". *)
Theorem makeIPAllowlist_never_noop (conf : config.ListConfig) (logger : Logger)
    (ntw : cli.Network) (updateCallback : cli.FireholUpdateCallback)
    (p p' : ipblocklist.Proc) (l : ipblocklist.IPBlocklist) (err : option error) :
  cli.makeIPAllowlist conf logger ntw updateCallback p = Ok (l, err) p' ->
  match err with
  | None =>
      exists fh, l = ipblocklist.BlFirehol fh /\
                 In (ipblocklist.GoRun (ipblocklist.BlFirehol fh)
                       (config.Get (config.UpdateEach conf) cli.DefaultFireholUpdateEach))
                    (ipblocklist.goroutines p')
  | Some e => l = ipblocklist.BlNil /\ exists e', e = wrapError "cannot build allowlist" e'
  end.
Proof.
  unfold cli.makeIPAllowlist.
  destruct (config.Enabled conf) as [[|]|] eqn:En; cbn [config.Get negb].
  - unfold mbind at 1. unfold M_bind.
    rewrite makeIPBlocklist_run by assumption.
    destruct (cli.NewFirehol _ _ _ _ _ _ p) as [[fh [e|]] p1|x p1];
      [| |discriminate].
    + intros [= <- <- <-]. split; [reflexivity|]. eexists. reflexivity.
    + intros [= <- <- <-]. exists fh. split; [reflexivity|].
      cbn. apply in_or_app. right. now left.
  - intros [= <- <- <-]. eexists. split; [reflexivity|].
    cbn. apply in_or_app. right. now left.
  - intros [= <- <- <-]. eexists. split; [reflexivity|].
    cbn. apply in_or_app. right. now left.
Qed.

End CliExtras.

Lemma makeIPBlocklist_enabled_witness :
  exists p2,
    cli.makeIPBlocklist (H := demo.externals) demo3.enabled_list demo.root_logger tt tt
      demo.proc
    = Ok (ipblocklist.BlFirehol (Some 0), None) p2 /\
    ipblocklist.lists p2
    = [{| ipblocklist.fhLogger := Named "ipblockist" demo.root_logger;
          ipblocklist.fhConcurrency := 1;
          ipblocklist.fhFiles :=
            [ipblocklist.External "https://a.example/list";
             ipblocklist.External "https://b.example/list";
             ipblocklist.External "/etc/mtg/local.txt"];
          ipblocklist.fhSnapshot := [] |}] /\
    ipblocklist.goroutines p2
    = [] ++ [ipblocklist.GoRun (ipblocklist.BlFirehol (Some 0)) 3600000000000%Z].
Proof.
  exact (makeIPBlocklist_enabled (H := demo.externals) demo3.enabled_list
           demo.root_logger tt tt demo.proc _ (Some 0) None eq_refl eq_refl).
Defined.

Lemma makeIPAllowlist_never_noop_witness :
  cli.makeIPAllowlist (H := demo.externals) demo3.empty_list demo.root_logger tt tt
    demo.proc
  = Ok (ipblocklist.BlNil,
        Some (wrapError "cannot build allowlist"
                (wrapError "incorrect parameters for firehol"
                   (errorString "no sources")))) demo.proc /\
  ipblocklist.BlNil = ipblocklist.BlNil /\
  exists e', wrapError "cannot build allowlist"
               (wrapError "incorrect parameters for firehol" (errorString "no sources"))
             = wrapError "cannot build allowlist" e'.
Proof.
  assert (E : cli.makeIPAllowlist (H := demo.externals) demo3.empty_list
                demo.root_logger tt tt demo.proc
              = Ok (ipblocklist.BlNil,
                    Some (wrapError "cannot build allowlist"
                            (wrapError "incorrect parameters for firehol"
                               (errorString "no sources")))) demo.proc)
    by reflexivity.
  split; [exact E|].
  exact (makeIPAllowlist_never_noop (H := demo.externals) _ _ _ _ _ _ _ _ E).
Defined.

Section NetworkExtras.

Context `{cli.NetworkExternals}.

Lemma collectProxies_acc (proxies : list cli.TypeProxyURL) (acc : list cli.URL) :
  cli.collectProxies proxies acc = acc ++ omap id proxies.
Proof.
  revert acc. induction proxies as [|v proxies IH]; intros acc.
  - cbn. now rewrite app_nil_r.
  - cbn [cli.collectProxies]. destruct v as [u|]; cbn.
    + rewrite IH. now rewrite <- app_assoc.
    + apply IH.
Qed.

(** X16: how [makeNetwork] picks the dialer.  With no proxy entry the
    network is built on the default dialer.  Otherwise the nil entries
    are dropped and the order kept: exactly one URL left gives a
    socks5 dialer for it, any other number gives a load-balanced
    dialer over all of them, also over none when every entry was nil.
    The user agent is "mtg/" followed by the version. *)
Theorem makeNetwork_dialer (conf : cli.NetworkConfig) (version : string)
    (baseDialer : cli.Dialer) :
  cli.NewDefaultDialer (config.Get (cli.Timeout_TCP conf) cli.DefaultTimeout) 0
  = inl baseDialer ->
  let network := fun d =>
    cli.NewNetwork d ("mtg/" ++ version)%string
      (cli.IP_String (config.Get (cli.DOHIP conf) (cli.ParseIP cli.DefaultDOHHostname)))
      (config.Get (cli.Timeout_HTTP conf) cli.DefaultHTTPTimeout) in
  let proxyURLs := omap id (cli.Proxies conf) in
  (cli.Proxies conf = [] -> cli.makeNetwork conf version = network baseDialer) /\
  (forall u, proxyURLs = [u] ->
     cli.makeNetwork conf version
     = match cli.NewSocks5Dialer baseDialer u with
       | inl d => network d
       | inr e => inr (wrapError "cannot build socks5 dialer" e)
       end) /\
  (cli.Proxies conf <> [] -> length proxyURLs <> 1 ->
     cli.makeNetwork conf version
     = match cli.NewLoadBalancedSocks5Dialer baseDialer proxyURLs with
       | inl d => network d
       | inr e => inr (wrapError "cannot build socks5 dialer" e)
       end).
Proof.
  intros B. cbv zeta. unfold cli.makeNetwork. rewrite B.
  split; [|split].
  - now intros ->.
  - intros u U. destruct (cli.Proxies conf) as [|v vs] eqn:P; [discriminate U|].
    rewrite collectProxies_acc, app_nil_l, U. reflexivity.
  - intros N L. destruct (cli.Proxies conf) as [|v vs] eqn:P; [now destruct N|].
    rewrite collectProxies_acc, app_nil_l.
    destruct (omap id (v :: vs)) as [|u [|u' us]]; try reflexivity.
    now destruct L.
Qed.

(** X17: with any proxy entry configured, [makeNetwork] never builds
    the network on the direct dialer.  A network it returns was built
    on a dialer that one of the two socks5 constructors made; when the
    constructor fails there is no network. *)
Theorem makeNetwork_no_direct_fallback (conf : cli.NetworkConfig) (version : string)
    (baseDialer : cli.Dialer) (n : cli.NetworkValue) :
  cli.NewDefaultDialer (config.Get (cli.Timeout_TCP conf) cli.DefaultTimeout) 0
  = inl baseDialer ->
  cli.Proxies conf <> [] ->
  cli.makeNetwork conf version = inl n ->
  exists d,
    cli.NewNetwork d ("mtg/" ++ version)%string
      (cli.IP_String (config.Get (cli.DOHIP conf) (cli.ParseIP cli.DefaultDOHHostname)))
      (config.Get (cli.Timeout_HTTP conf) cli.DefaultHTTPTimeout) = inl n /\
    ((exists u, In (Some u) (cli.Proxies conf) /\
                cli.NewSocks5Dialer baseDialer u = inl d) \/
     cli.NewLoadBalancedSocks5Dialer baseDialer (omap id (cli.Proxies conf)) = inl d).
Proof.
  intros B N. unfold cli.makeNetwork. rewrite B.
  destruct (cli.Proxies conf) as [|v vs] eqn:P; [now destruct N|].
  rewrite collectProxies_acc, app_nil_l.
  destruct (omap id (v :: vs)) as [|u [|u' us]] eqn:O.
  - destruct (cli.NewLoadBalancedSocks5Dialer baseDialer []) as [d|e] eqn:D;
      [|discriminate].
    intros E. exists d. split; [exact E|]. now right.
  - destruct (cli.NewSocks5Dialer baseDialer u) as [d|e] eqn:D; [|discriminate].
    intros E. exists d. split; [exact E|]. left. exists u. split; [|exact D].
    assert (I : u ∈ omap id (v :: vs)) by (rewrite O; apply list_elem_of_here).
    apply list_elem_of_omap in I as (x & Ix & Hx). cbn in Hx. subst x.
    now apply list_elem_of_In.
  - destruct (cli.NewLoadBalancedSocks5Dialer baseDialer (u :: u' :: us))
      as [d|e] eqn:D; [|discriminate].
    intros E. exists d. split; [exact E|]. now right.
Qed.

End NetworkExtras.

Lemma makeNetwork_dialer_witness :
  cli.makeNetwork (H := demo3.network_externals) demo3.one_proxy "2.1.7"
  = inl (demo3.Socks5 (demo3.Direct 10000000000) "socks5://127.0.0.1:1080",
         "mtg/2.1.7", "9.9.9.9", 10000000000%Z) /\
  cli.makeNetwork (H := demo3.network_externals) demo3.nil_proxies "2.1.7"
  = inl (demo3.LoadBalanced (demo3.Direct 10000000000) [],
         "mtg/2.1.7", "9.9.9.9", 10000000000%Z).
Proof.
  split.
  - exact (proj1 (proj2 (makeNetwork_dialer (H := demo3.network_externals)
                           demo3.one_proxy "2.1.7" _ eq_refl))
             "socks5://127.0.0.1:1080" eq_refl).
  - apply (proj2 (proj2 (makeNetwork_dialer (H := demo3.network_externals)
                           demo3.nil_proxies "2.1.7" _ eq_refl))).
    + discriminate.
    + discriminate.
Defined.

Lemma makeNetwork_no_direct_fallback_witness :
  exists d,
    cli.NewNetwork (NetworkExternals := demo3.network_externals) d "mtg/2.1.7"
      "9.9.9.9" 10000000000%Z
    = inl (demo3.LoadBalanced (demo3.Direct 10000000000) [],
           "mtg/2.1.7", "9.9.9.9", 10000000000%Z) /\
    ((exists u, In (Some u) [None; None; None] /\
                cli.NewSocks5Dialer (NetworkExternals := demo3.network_externals)
                  (demo3.Direct 10000000000) u = inl d) \/
     cli.NewLoadBalancedSocks5Dialer (NetworkExternals := demo3.network_externals)
       (demo3.Direct 10000000000) [] = inl d).
Proof.
  apply (makeNetwork_no_direct_fallback (H := demo3.network_externals)
           demo3.nil_proxies "2.1.7" (demo3.Direct 10000000000) _ eq_refl).
  - discriminate.
  - reflexivity.
Defined.

Section EventStreamExtras.

Context `{cli.StatsExternals}.

(** [makeEventStream] by cases on the two switches, the statsd
    constructor and the listener. *)
Lemma makeEventStream_run (conf : cli.StatsConfig) (logger : Logger) (w : cli.Sockets) :
  cli.makeEventStream conf logger w
  = let sd := config.Get (cli.StatsD_Enabled (cli.StatsD conf)) false in
    let pr := config.Get (cli.Prometheus_Enabled (cli.Prometheus conf)) false in
    let bindTo := config.Get (cli.Prometheus_BindTo (cli.Prometheus conf)) "" in
    let serve := fun fs : list cli.ObserverFactory =>
      match cli.refused w bindTo with
      | Some e =>
          Ok (None, Some (wrapError "cannot start a listener for prometheus" e)) w
      | None =>
          Ok (Some (cli.EventStream (fs ++ [cli.PrometheusMake (prometheus_of conf)])),
              None)
             {| cli.refused := cli.refused w;
                cli.listening := cli.listening w ++ [bindTo];
                cli.serving := cli.serving w ++
                                 [(prometheus_of conf, length (cli.listening w))] |}
      end in
    if sd then
      match statsd_of conf logger with
      | inr e => Ok (None, Some (wrapError "cannot build statsd observer" e)) w
      | inl f =>
          if pr then serve [cli.StatsdMake f]
          else Ok (Some (cli.EventStream [cli.StatsdMake f]), None) w
      end
    else if pr then serve [] else Ok (Some cli.NoopStream, None) w.
Proof.
  cbv zeta. unfold cli.makeEventStream, statsd_of, prometheus_of.
  destruct (config.Get (cli.StatsD_Enabled (cli.StatsD conf)) false).
  - destruct (cli.NewStatsd _ _ _ _) as [f|e]; [|reflexivity].
    unfold mbind, M_bind, mret, M_ret. cbn [app].
    destruct (config.Get (cli.Prometheus_Enabled (cli.Prometheus conf)) false);
      [|reflexivity].
    unfold cli.net_Listen.
    destruct (cli.refused w _); reflexivity.
  - unfold mbind, M_bind, mret, M_ret.
    destruct (config.Get (cli.Prometheus_Enabled (cli.Prometheus conf)) false);
      [|reflexivity].
    unfold cli.net_Listen.
    destruct (cli.refused w _); reflexivity.
Qed.

(** X18: what [makeEventStream] returns when it reports no error.  It
    is the no-op stream exactly when neither statsd nor prometheus is
    enabled; otherwise it is an event stream over one factory per
    enabled observer, statsd before prometheus.  A listener is opened
    and a [Serve] goroutine started on it exactly when prometheus is
    enabled. *)
Theorem makeEventStream_stream (conf : cli.StatsConfig) (logger : Logger)
    (w w' : cli.Sockets) (s : option cli.EventStreamValue) :
  cli.makeEventStream conf logger w = Ok (s, None) w' ->
  let sd := config.Get (cli.StatsD_Enabled (cli.StatsD conf)) false in
  let pr := config.Get (cli.Prometheus_Enabled (cli.Prometheus conf)) false in
  let factories :=
    (if sd then match statsd_of conf logger with
                | inl f => [cli.StatsdMake f]
                | inr _ => []
                end
     else []) ++
    (if pr then [cli.PrometheusMake (prometheus_of conf)] else []) in
  s = Some (match factories with
            | [] => cli.NoopStream
            | _ :: _ => cli.EventStream factories
            end) /\
  (s = Some cli.NoopStream <-> sd = false /\ pr = false) /\
  (sd = true -> exists f, statsd_of conf logger = inl f) /\
  cli.listening w'
  = cli.listening w ++
    (if pr then [config.Get (cli.Prometheus_BindTo (cli.Prometheus conf)) ""] else []) /\
  cli.serving w'
  = cli.serving w ++
    (if pr then [(prometheus_of conf, length (cli.listening w))] else []).
Proof.
  rewrite makeEventStream_run. cbv zeta.
  destruct (config.Get (cli.StatsD_Enabled (cli.StatsD conf)) false);
    destruct (config.Get (cli.Prometheus_Enabled (cli.Prometheus conf)) false).
  - destruct (statsd_of conf logger) as [f|e]; [|discriminate].
    destruct (cli.refused w _); [discriminate|].
    intros [= <- <-]. cbn [cli.listening cli.serving app].
    split; [reflexivity|].
    split; [split; [discriminate|intros [? _]; discriminate]|].
    split; [eauto|]. split; reflexivity.
  - destruct (statsd_of conf logger) as [f|e]; [|discriminate].
    intros [= <- <-]. rewrite !app_nil_r.
    split; [reflexivity|].
    split; [split; [discriminate|intros [? _]; discriminate]|].
    split; [eauto|]. split; reflexivity.
  - destruct (cli.refused w _); [discriminate|].
    intros [= <- <-]. cbn [cli.listening cli.serving app].
    split; [reflexivity|].
    split; [split; [discriminate|intros [_ ?]; discriminate]|].
    split; [discriminate|]. split; reflexivity.
  - intros [= <- <-]. rewrite !app_nil_r.
    split; [reflexivity|]. split; [split; auto|].
    split; [discriminate|]. split; reflexivity.
Qed.

(** X19: when [makeEventStream] reports an error it returns no stream,
    and it has opened no listener with [net.Listen] and started no
    [Serve] goroutine.  The error is that of the statsd constructor,
    wrapped, and then prometheus was not looked at; or it is that of
    [net.Listen], wrapped, and then a statsd factory, if statsd is
    enabled, had been built before and is not returned. *)
Theorem makeEventStream_error (conf : cli.StatsConfig) (logger : Logger)
    (w w' : cli.Sockets) (s : option cli.EventStreamValue) (err : error) :
  cli.makeEventStream conf logger w = Ok (s, Some err) w' ->
  s = None /\ w' = w /\
  cli.listening w' = cli.listening w /\ cli.serving w' = cli.serving w /\
  ((config.Get (cli.StatsD_Enabled (cli.StatsD conf)) false = true /\
    exists e, statsd_of conf logger = inr e /\
              err = wrapError "cannot build statsd observer" e) \/
   (config.Get (cli.Prometheus_Enabled (cli.Prometheus conf)) false = true /\
    (config.Get (cli.StatsD_Enabled (cli.StatsD conf)) false = true ->
     exists f, statsd_of conf logger = inl f) /\
    exists e, cli.refused w (config.Get (cli.Prometheus_BindTo (cli.Prometheus conf)) "")
              = Some e /\
              err = wrapError "cannot start a listener for prometheus" e)).
Proof.
  rewrite makeEventStream_run. cbv zeta.
  destruct (config.Get (cli.StatsD_Enabled (cli.StatsD conf)) false);
    destruct (config.Get (cli.Prometheus_Enabled (cli.Prometheus conf)) false).
  - destruct (statsd_of conf logger) as [f|e].
    + destruct (cli.refused w _) as [e|] eqn:R; [|discriminate].
      intros [= <- <- <-]. do 4 (split; [reflexivity|]). right.
      split; [reflexivity|]. split; eauto.
    + intros [= <- <- <-]. do 4 (split; [reflexivity|]). left. eauto.
  - destruct (statsd_of conf logger) as [f|e]; [discriminate|].
    intros [= <- <- <-]. do 4 (split; [reflexivity|]). left. eauto.
  - destruct (cli.refused w _) as [e|] eqn:R; [|discriminate].
    intros [= <- <- <-]. do 4 (split; [reflexivity|]). right.
    split; [reflexivity|]. split; [discriminate|]. eauto.
  - discriminate.
Qed.

End EventStreamExtras.

Lemma makeEventStream_stream_witness :
  cli.makeEventStream (H := demo3.stats_externals) demo3.both_stats demo.root_logger
    demo3.sockets
  = Ok (Some demo3.both_stream, None) demo3.sockets_serving /\
  (Some demo3.both_stream = Some cli.NoopStream <-> true = false /\ true = false).
Proof.
  assert (E : cli.makeEventStream (H := demo3.stats_externals) demo3.both_stats
                demo.root_logger demo3.sockets
              = Ok (Some demo3.both_stream, None) demo3.sockets_serving)
    by reflexivity.
  split; [exact E|].
  exact (proj1 (proj2 (makeEventStream_stream (H := demo3.stats_externals)
                         _ _ _ _ _ E))).
Defined.

Lemma makeEventStream_error_witness :
  (cli.makeEventStream (H := demo3.stats_externals) demo3.bad_statsd demo.root_logger
     demo3.sockets
   = Ok (None, Some (wrapError "cannot build statsd observer"
                       (errorString "empty address"))) demo3.sockets /\
   cli.listening demo3.sockets = cli.listening demo3.sockets) /\
  (cli.makeEventStream (H := demo3.stats_externals) demo3.both_stats demo.root_logger
     demo3.sockets_refusing
   = Ok (None, Some (wrapError "cannot start a listener for prometheus"
                       (errorString "listen: address already in use")))
        demo3.sockets_refusing /\
   cli.serving demo3.sockets_refusing = cli.serving demo3.sockets_refusing).
Proof.
  assert (E1 : cli.makeEventStream (H := demo3.stats_externals) demo3.bad_statsd
                 demo.root_logger demo3.sockets
               = Ok (None, Some (wrapError "cannot build statsd observer"
                                   (errorString "empty address"))) demo3.sockets)
    by reflexivity.
  assert (E2 : cli.makeEventStream (H := demo3.stats_externals) demo3.both_stats
                 demo.root_logger demo3.sockets_refusing
               = Ok (None, Some (wrapError "cannot start a listener for prometheus"
                                   (errorString "listen: address already in use")))
                    demo3.sockets_refusing)
    by reflexivity.
  split.
  - split; [exact E1|].
    exact (proj1 (proj2 (proj2 (makeEventStream_error (H := demo3.stats_externals)
                                  _ _ _ _ _ _ E1)))).
  - split; [exact E2|].
    exact (proj1 (proj2 (proj2 (proj2 (makeEventStream_error
                                         (H := demo3.stats_externals)
                                         _ _ _ _ _ _ E2))))).
Defined.

(** ** NewListener *)

Section NewListenerExtras.

Variable net_Listen : string -> string -> M World (nat + error).

(** X20: [NewListener] fails exactly when [net.Listen] fails, with its
    error wrapped; otherwise it wraps the base listener that
    [net.Listen] opened, whatever the buffer size asked for, and the
    first connection waiting there that can be tuned is what [Accept]
    hands out, tuned. *)
Theorem NewListener_then_Accept (bindTo : string) (bufferSize : Z) (w w1 : World)
    (r : nat + error) :
  net_Listen "tcp" bindTo w = Ok r w1 ->
  match r with
  | inr e =>
      utils.NewListener net_Listen bindTo bufferSize w
      = Ok (None, Some (wrapError "cannot build a base listener" e)) w1
  | inl b =>
      exists l,
        utils.NewListener net_Listen bindTo bufferSize w = Ok (Some l, None) w1 /\
        forall c rest,
          backlogs w1 !! b = Some (Accepted c :: rest) -> sockoptResult c = None ->
          exists w2,
            utils.Accept l w1 = Ok (Some (length (conns w1)), None) w2 /\
            conns w2 = conns w1 ++ [tune c]
  end.
Proof.
  intros E. unfold utils.NewListener. rewrite (bind_Ok _ _ _ _ _ E).
  destruct r as [b|e]; [|reflexivity].
  exists {| utils.base := b |}. split; [reflexivity|].
  intros c rest B S. eexists.
  rewrite (Accept_tuned {| utils.base := b |} w1 c rest B S). split; reflexivity.
Qed.

End NewListenerExtras.

Lemma NewListener_then_Accept_witness :
  demo2.net_Listen "tcp" ":3128" demo2.accepting = Ok (inl 2) demo2.listened /\
  exists l,
    utils.NewListener demo2.net_Listen ":3128" 4096 demo2.accepting
    = Ok (Some l, None) demo2.listened /\
    forall c rest,
      backlogs demo2.listened !! 2 = Some (Accepted c :: rest) ->
      sockoptResult c = None ->
      exists w2,
        utils.Accept l demo2.listened = Ok (Some (length (conns demo2.listened)), None) w2 /\
        conns w2 = conns demo2.listened ++ [tune c].
Proof.
  assert (E : demo2.net_Listen "tcp" ":3128" demo2.accepting
              = Ok (inl 2) demo2.listened) by reflexivity.
  split; [exact E|].
  exact (NewListener_then_Accept demo2.net_Listen ":3128" 4096 _ _ _ E).
Defined.

(** ** What Close logs *)

(** One leg of [Close] on a connection of the store, exactly. *)
Lemma close_leg_exact (lg : Logger) (msg : string) (r : nat) (o : ConnObj) (w : World) :
  conns w !! r = Some o ->
  (err ← conn_Close r;
   match err with
   | Some e => mtglib.logger_InfoError (Some lg) msg e
   | None => mret tt
   end) w
  = Ok tt
      (set_logs (fun ls => ls ++ match closeScript o (closeCalls o) with
                                 | Some e => [{| recLogger := lg; recMsg := msg;
                                                 recErr := Some e |}]
                                 | None => []
                                 end)
         (set_conns (fun cs => <[r := bump 1 o]> cs) w)).
Proof.
  intros E. rewrite (bind_Ok _ _ _ _ _ (conn_Close_valid r w o E)).
  destruct (closeScript o (closeCalls o)) as [e|]; [reflexivity|].
  unfold mret, M_ret, set_logs. cbn. now rewrite app_nil_r.
Qed.

(** X21: on a stream context with two different legs, [Close] calls
    [Close] on the client connection and then on the upstream
    connection whether or not the first call failed, and it logs
    exactly the errors these two calls report, the client's first,
    each under its own message. *)
Theorem Close_logs_errors (s : mtglib.streamContext) (w : World) (lg : Logger)
    (rc rt : nat) (oc ot : ConnObj) :
  mtglib.logger s = Some lg ->
  mtglib.clientConn s = Some rc -> mtglib.telegramConn s = Some rt ->
  rc <> rt ->
  conns w !! rc = Some oc -> conns w !! rt = Some ot ->
  exists w',
    mtglib.Close s w = Ok tt w' /\
    conns w' !! rc = Some (bump 1 oc) /\
    conns w' !! rt = Some (bump 1 ot) /\
    logs w'
    = logs w ++
      match closeScript oc (closeCalls oc) with
      | Some e => [{| recLogger := lg; recMsg := "error closing clientConn";
                      recErr := Some e |}]
      | None => []
      end ++
      match closeScript ot (closeCalls ot) with
      | Some e => [{| recLogger := lg; recMsg := "error closing telegramConn";
                      recErr := Some e |}]
      | None => []
      end.
Proof.
  intros L Cc Ct N Ec Et.
  assert (Lc : rc < length (conns w)) by (now apply lookup_lt_Some with oc).
  assert (Lt : rt < length (conns w)) by (now apply lookup_lt_Some with ot).
  unfold mtglib.Close. rewrite L, Cc, Ct.
  set (w0 := set_ctxs (cancelled (mtglib.ctxCancel s)) w).
  assert (E0 : cancel (mtglib.ctxCancel s) w = Ok tt w0) by reflexivity.
  rewrite (bind_Ok _ _ _ _ _ E0).
  assert (Ec0 : conns w0 !! rc = Some oc) by exact Ec.
  rewrite (bind_Ok _ _ _ _ _ (close_leg_exact lg "error closing clientConn" rc oc w0 Ec0)).
  set (w1 := set_logs _ (set_conns _ w0)).
  assert (Et1 : conns w1 !! rt = Some ot).
  { unfold w1. cbn [conns set_logs set_conns].
    rewrite list_lookup_insert_ne by assumption. exact Et. }
  rewrite (close_leg_exact lg "error closing telegramConn" rt ot w1 Et1).
  eexists. split; [reflexivity|].
  cbn [conns logs set_logs set_conns set_ctxs w1 w0]. split; [|split].
  - rewrite list_lookup_insert_ne by auto. now apply list_lookup_insert_eq.
  - apply list_lookup_insert_eq. now rewrite length_insert.
  - unfold w1, w0. cbn [conns logs set_logs set_conns set_ctxs].
    now rewrite <- app_assoc.
Qed.

Lemma Close_logs_errors_witness :
  exists w',
    mtglib.Close demo.stream demo.closed_once = Ok tt w' /\
    conns w' !! 0 = Some (bump 1 (bump 1 demo.client)) /\
    conns w' !! 1 = Some (bump 1 (bump 1 demo.telegram)) /\
    logs w'
    = logs demo.closed_once ++
      [{| recLogger := demo.root_logger; recMsg := "error closing clientConn";
          recErr := Some (errorString "use of closed network connection") |}] ++
      [{| recLogger := demo.root_logger; recMsg := "error closing telegramConn";
          recErr := Some (errorString "use of closed network connection") |}].
Proof.
  exact (Close_logs_errors demo.stream demo.closed_once demo.root_logger 0 1
           (bump 1 demo.client) (bump 1 demo.telegram)
           eq_refl eq_refl eq_refl ltac:(discriminate) eq_refl eq_refl).
Defined.

(** ** Networks that are not valid *)

(** As in the Go library, a network whose address is neither 4 nor 16
    bytes long has a nil number: it contains no address of any length
    but the empty one. *)
Example Contains_invalid_network :
  net.Contains {| net.IPNet_IP := [x0a]; net.IPNet_Mask := [xff] |} [] = true /\
  net.Contains {| net.IPNet_IP := [x0a]; net.IPNet_Mask := [xff] |}
    [x0a; x00; x00; x0a] = false.
Proof. split; reflexivity. Qed.
